(** * AgenticSeek HTTP test client ([tutorial_poc.py])

    A shallow embedding of the client class [AgenticSeekClient], of the
    poll loop [wait_for_completion] and of the command dispatcher [main],
    together with the properties the specification states about them.

    The program talks to the outside (HTTP transport, wall clock, file
    system, standard output).  Every such interaction is recorded as an
    [event] in a trace, and the outside is a record of oracles that answer
    as functions of the trace so far: any deterministic run of a mock
    server, clock or file system is one such record.

    [demo_quick_test] is called from nowhere and is left out.  Time is
    counted in rational seconds.  Standard output is taken to encode as
    UTF-8 and to accept every line of text; what it cannot encode is a
    string with a lone surrogate, and what can go wrong at the end is the
    last flush. *)

From Stdlib Require Import Bool List String Ascii ZArith QArith Lia Lqa DecimalString.
From Stdlib Require Strings.Byte.
Import ListNotations.
Open Scope string_scope.
Open Scope Z_scope.

#[local] Set Warnings "-register-all".

(** ** Values *)

(** JSON documents as [response.json()] yields them in Python: [None],
    [bool], [int], [float], [str], [list] and [dict].  A [dict] is kept as
    an association list in insertion order; keys of a parsed document are
    distinct.  Finite floats are kept as the rationals they denote.  [JStr]
    holds text; a [str] with a lone surrogate in it (as ["\ud800"] parses
    to), which is never empty, is a [JSurrogate], kept in its escaped
    form.  Keys are text. *)
Inductive json : Type :=
| JNull
| JBool (b : bool)
| JInt (z : Z)
| JFloat (q : Q)
| JStr (s : string)
| JSurrogate (escaped : string)
| JList (l : list json)
| JDict (d : list (string * json)).

Definition bytes := list Byte.byte.

(** Python truth value of a JSON document ([bool(v)]). *)
Definition truthy (v : json) : bool :=
  match v with
  | JNull => false
  | JBool b => b
  | JInt z => negb (z =? 0)
  | JFloat q => negb (Qeq_bool q 0)
  | JStr s => negb (s =? "")%string
  | JSurrogate _ => true
  | JList l => match l with [] => false | _ => true end
  | JDict d => match d with [] => false | _ => true end
  end.

(** Whether the UTF-8 encoder of standard output takes the text of
    [json.dumps(v, ensure_ascii=False)]: it does unless a string of [v]
    holds a lone surrogate. *)
Fixpoint encodable (v : json) : bool :=
  match v with
  | JSurrogate _ => false
  | JList l => forallb encodable l
  | JDict d => forallb (fun kv => encodable (snd kv)) d
  | _ => true
  end.

Fixpoint assoc (k : string) (d : list (string * json)) : option json :=
  match d with
  | [] => None
  | (k', v) :: d' => if (k =? k')%string then Some v else assoc k d'
  end.

(** [k in j] for a mapping [j]; a document that is no mapping has no keys. *)
Definition has_key (k : string) (j : json) : bool :=
  match j with
  | JDict d => match assoc k d with Some _ => true | None => false end
  | _ => false
  end.

Definition dict_keys (j : json) : list string :=
  match j with
  | JDict d => map fst d
  | _ => []
  end.

(** ** Exceptions *)

(** The exception classes that occur.  [ConnectionError], [Timeout],
    [TooManyRedirects], [HTTPError] and [JSONDecodeError] are the classes of
    [requests.exceptions]; all of them derive from [RequestException].  The
    others are built-in classes, none of which does. *)
Inductive exn_class : Type :=
| ConnectionError
| Timeout
| TooManyRedirects
| HTTPError
| JSONDecodeError
| AttributeError
| UnboundLocalError
| OSError
| ValueError
| OverflowError
| RecursionError
| UnicodeEncodeError.

Inductive exn : Type :=
| Exn (c : exn_class) (msg : string)
| SystemExit (code : Z).

Definition is_RequestException (e : exn) : bool :=
  match e with
  | Exn (ConnectionError | Timeout | TooManyRedirects | HTTPError | JSONDecodeError) _ => true
  | _ => false
  end.

Definition is_HTTPError (e : exn) : bool :=
  match e with
  | Exn HTTPError _ => true
  | _ => false
  end.

(** [str(e)] *)
Definition str_exn (e : exn) : string :=
  match e with
  | Exn _ msg => msg
  | SystemExit code => NilZero.string_of_int (Z.to_int code)
  end.

(** ** HTTP *)

(** The arguments of [session.request(method, url, **kwargs)]; the keyword
    arguments the program passes are [json=] and [timeout=]. *)
Record request : Type := mkRequest {
  req_method : string;
  req_url : string;
  req_json : option json;
  req_timeout : option Z
}.

(** A [requests.Response]: [json_value] is what [response.json()] returns,
    [None] when the body is no JSON document and [json()] raises
    [JSONDecodeError]. *)
Record response : Type := mkResponse {
  status_code : Z;
  reason : string;
  content : bytes;
  json_value : option json
}.

(** The transport failures of the specification. *)
Inductive transport_failure : Type :=
| ConnectionRefused
| DNSFailure
| TimedOut
| RedirectLoop.

Definition failure_class (f : transport_failure) : exn_class :=
  match f with
  | ConnectionRefused => ConnectionError
  | DNSFailure => ConnectionError
  | TimedOut => Timeout
  | RedirectLoop => TooManyRedirects
  end.

(** What makes [session.request] raise something else than a
    [RequestException]: a timeout of 0 or less ([ValueError], before
    anything is sent) or one too large for the socket layer
    ([OverflowError]). *)
Inductive argument_error : Type :=
| TimeoutNotPositive
| TimeoutTooLarge.

Definition argument_class (a : argument_error) : exn_class :=
  match a with
  | TimeoutNotPositive => ValueError
  | TimeoutTooLarge => OverflowError
  end.

(** What makes [response.json()] raise something else than
    [JSONDecodeError]: an integer of more than 4300 digits ([ValueError])
    or nesting too deep for the decoder ([RecursionError]). *)
Inductive decoder_error : Type :=
| TooManyDigits
| NestedTooDeep.

Definition decoder_class (d : decoder_error) : exn_class :=
  match d with
  | TooManyDigits => ValueError
  | NestedTooDeep => RecursionError
  end.

(** What a call of [session.request] comes to: a transport failure, a
    response, a refusal of the arguments, or a response on which [json()]
    raises a [decoder_error]. *)
Inductive outcome : Type :=
| Failed (f : transport_failure) (msg : string)
| Responded (r : response)
| Refused (a : argument_error) (msg : string)
| RespondedUnreadable (r : response) (d : decoder_error) (msg : string).

(** The check [requests] makes of [timeout=] before it connects. *)
Definition timeout_error (t : option Z) : option (argument_error * string) :=
  match t with
  | Some z =>
      if z <=? 0 then
        Some (TimeoutNotPositive,
              "Attempted to set connect timeout to "
              ++ NilZero.string_of_int (Z.to_int z)
              ++ ", but the timeout cannot be set to a value less than or equal to 0.")
      else None
  | None => None
  end.

(** ** Events and the outside world *)

(** [EvRequest rq]: [session.request] is called with [rq]; whether
    anything went out is in the [outcome].  [EvWrite]: [f.write] has
    returned. *)
Inductive event : Type :=
| EvRequest (r : request)
| EvTime
| EvSleep (seconds : Q)
| EvOpen (path : string)
| EvWrite (path : string) (data : bytes)
| EvClose (path : string)
| EvPrint (line : string)
| EvPrintJson (data : json).

Record Env : Type := mkEnv {
  (** what [session.request] does with a request, given the trace so far *)
  http : list event -> request -> outcome;
  (** what [time.time()] reads, in seconds *)
  clock : list event -> Q;
  (** whether [open(path, 'wb')] raises *)
  open_fails : list event -> string -> option string;
  (** whether [f.write(data)] raises *)
  write_fails : list event -> string -> bytes -> option string;
  (** whether closing the file raises *)
  close_fails : list event -> string -> option string;
  (** whether the flush of standard output at the end of the process fails *)
  flush_fails : list event -> bool
}.

(** ** The client object and the state *)

Record AgenticSeekClient : Type := mkClient {
  base_url : string
}.

(** The state a method runs in: the receiver [self] (so that an assignment
    to one of its fields would show) and the trace of events. *)
Record World : Type := mkWorld {
  self : AgenticSeekClient;
  trace : list event
}.

Inductive result (A : Type) : Type :=
| Return (a : A)
| Raise (e : exn).
Arguments Return {A} a.
Arguments Raise {A} e.

Definition M (A : Type) : Type := World -> result A * World.

Definition ret {A} (a : A) : M A := fun w => (Return a, w).
Definition raise {A} (e : exn) : M A := fun w => (Raise e, w).
Definition bind {A B} (m : M A) (k : A -> M B) : M B :=
  fun w => match m w with
           | (Return a, w') => k a w'
           | (Raise e, w') => (Raise e, w')
           end.

(** [try: m  except: h] where [h] decides whether it handles the exception. *)
Definition try_except {A} (m : M A) (h : exn -> option (M A)) : M A :=
  fun w => match m w with
           | (Return a, w') => (Return a, w')
           | (Raise e, w') => match h e with
                              | Some k => k w'
                              | None => (Raise e, w')
                              end
           end.

Declare Scope py_scope.
Delimit Scope py_scope with py.
Notation "x <- m ;; k" := (bind m (fun x => k))
  (at level 61, m at next level, right associativity) : py_scope.
Notation "m ;;; k" := (bind m (fun _ => k))
  (at level 61, right associativity) : py_scope.
Open Scope py_scope.

Definition emit (e : event) : M unit :=
  fun w => (Return tt, mkWorld (self w) (trace w ++ [e])).

Definition get_self : M AgenticSeekClient := fun w => (Return (self w), w).

(** [print(line)] for a line of text.  A [string] holds text, which the
    encoder of standard output always takes; a [str] with a lone surrogate
    occurs only inside a JSON document, as a [JSurrogate], and it is
    [print_response] that meets it. *)
Definition print (line : string) : M unit := emit (EvPrint line).

(** ** Strings *)

(** [s.rstrip(c)] for a single character [c]. *)
Fixpoint rstrip (c : ascii) (s : string) : string :=
  match s with
  | EmptyString => EmptyString
  | String a s' =>
      match rstrip c s' with
      | EmptyString => if Ascii.eqb a c then EmptyString else String a EmptyString
      | r => String a r
      end
  end.

(** [s.endswith(c)] for a single character [c]. *)
Fixpoint endswith (c : ascii) (s : string) : bool :=
  match s with
  | EmptyString => false
  | String a EmptyString => Ascii.eqb a c
  | String _ s' => endswith c s'
  end.

(** [c * n] *)
Fixpoint repeat_char (c : ascii) (n : nat) : string :=
  match n with
  | O => EmptyString
  | S n' => String c (repeat_char c n')
  end.

(** [sep.join(l)] *)
Fixpoint join (sep : string) (l : list string) : string :=
  match l with
  | [] => ""
  | [x] => x
  | x :: l' => x ++ sep ++ join sep l'
  end.

Definition nl : string := String (ascii_of_nat 10) EmptyString.

(** [str(z)] for an integer. *)
Definition str_int (z : Z) : string := NilZero.string_of_int (Z.to_int z).

Definition slash : ascii := "/"%char.

(** ** The client ([class AgenticSeekClient]) *)

(** [__init__(self, base_url)]: line 38 strips every trailing slash. *)
Definition __init__ (url : string) : AgenticSeekClient :=
  mkClient (rstrip slash url).

Section Client.

Variable env : Env.

(** What [session.request] hands back: the response, and the exception
    its [json()] will raise when that is no [JSONDecodeError]. *)
Definition reply : Type := (response * option exn)%type.

(** [self.session.request(method, url, **kwargs)].  The call is logged and
    the transport decides; a failure is raised as the exception class of
    [requests.exceptions] it belongs to, a refusal as its built-in class. *)
Definition session_request (rq : request) : M reply :=
  fun w =>
    let w' := mkWorld (self w) (trace w ++ [EvRequest rq]) in
    match http env (trace w) rq with
    | Failed f msg => (Raise (Exn (failure_class f) msg), w')
    | Responded r => (Return (r, None), w')
    | Refused a msg => (Raise (Exn (argument_class a) msg), w')
    | RespondedUnreadable r d msg => (Return (r, Some (Exn (decoder_class d) msg)), w')
    end.

(** [response.raise_for_status()] of [requests]: an [HTTPError] for a
    status code from 400 to 599, nothing otherwise. *)
Definition raise_for_status (url : string) (r : response) : M unit :=
  let code := status_code r in
  if (400 <=? code) && (code <? 500) then
    raise (Exn HTTPError
             (str_int code ++ " Client Error: " ++ reason r ++ " for url: " ++ url))
  else if (500 <=? code) && (code <? 600) then
    raise (Exn HTTPError
             (str_int code ++ " Server Error: " ++ reason r ++ " for url: " ++ url))
  else ret tt.

(** [response.json()]: the parsed body, or [JSONDecodeError] (a
    [RequestException] in [requests] since 2.27), or what the decoder
    raises on a number or a nesting it cannot take. *)
Definition response_json (rp : reply) : M json :=
  match snd rp with
  | Some e => raise e
  | None =>
      match json_value (fst rp) with
      | Some j => ret j
      | None => raise (Exn JSONDecodeError "Expecting value: line 1 column 1 (char 0)")
      end
  end.

(** The two [except] clauses of [_make_request] (lines 61 to 64).  The
    local [response] is bound only once [session.request] has returned. *)
Definition make_request_except (resp : option response) (e : exn) : option (M json) :=
  if is_HTTPError e then
    Some match resp with
         | Some r => ret (JDict [("error", JStr (str_exn e));
                                 ("status_code", JInt (status_code r))])
         | None => raise (Exn UnboundLocalError
                            "cannot access local variable 'response'")
         end
  else if is_RequestException e then
    Some (ret (JDict [("error", JStr (str_exn e))]))
  else None.

Definition _make_request (method endpoint : string)
    (js : option json) (timeout : option Z) : M json :=
  s <- get_self ;;
  let url := base_url s ++ endpoint in
  fun w =>
    match session_request (mkRequest method url js timeout) w with
    | (Raise e, w') =>
        match make_request_except None e with
        | Some k => k w'
        | None => (Raise e, w')
        end
    | (Return rp, w') =>
        try_except (raise_for_status url (fst rp) ;;; response_json rp)
                   (make_request_except (Some (fst rp))) w'
    end.

Definition health_check : M json := _make_request "GET" "/health" None None.

Definition get_status : M json := _make_request "GET" "/is_active" None None.

Definition stop_agent : M json := _make_request "GET" "/stop" None None.

Definition get_latest_answer : M json :=
  _make_request "GET" "/latest_answer" None None.

Definition query (text : string) (timeout : Z) : M json :=
  let payload := JDict [("query", JStr text)] in
  _make_request "POST" "/query" (Some payload) (Some timeout).

(** Whether the path holds a NUL character, which [open] refuses with a
    [ValueError]. *)
Fixpoint has_nul (p : string) : bool :=
  match p with
  | EmptyString => false
  | String a p' => Ascii.eqb a Ascii.zero || has_nul p'
  end.

(** [with open(path, 'wb') as f: f.write(data)]: the file is closed when
    the block is left, also when [write] raises; the close itself can
    raise (the bytes are flushed then), and what it raises is what leaves
    the block. *)
Definition with_open_write (path : string) (data : bytes) : M unit :=
  fun w =>
    if has_nul path then (Raise (Exn ValueError "embedded null byte"), w)
    else
    match open_fails env (trace w) path with
    | Some msg => (Raise (Exn OSError msg), w)
    | None =>
        let t1 := (trace w ++ [EvOpen path])%list in
        match write_fails env t1 path data with
        | Some msg =>
            let t2 := (t1 ++ [EvClose path])%list in
            match close_fails env t1 path with
            | Some msg' => (Raise (Exn OSError msg'), mkWorld (self w) t2)
            | None => (Raise (Exn OSError msg), mkWorld (self w) t2)
            end
        | None =>
            let t2 := (t1 ++ [EvWrite path data])%list in
            let t3 := (t2 ++ [EvClose path])%list in
            match close_fails env t2 path with
            | Some msg' => (Raise (Exn OSError msg'), mkWorld (self w) t3)
            | None => (Return tt, mkWorld (self w) t3)
            end
        end
    end.

(** [if save_path:] holds for a path that is given and not empty. *)
Definition path_given (save_path : option string) : option string :=
  match save_path with
  | Some p => if (p =? "")%string then None else Some p
  | None => None
  end.

Definition get_screenshot (save_path : option string) : M (option bytes) :=
  s <- get_self ;;
  let url := base_url s ++ "/screenshot" in
  try_except
    (rp <- session_request (mkRequest "GET" url None None) ;;
     let r := fst rp in
     raise_for_status url r ;;;
     match path_given save_path with
     | Some p =>
         with_open_write p (content r) ;;;
         print ("Screenshot saved to: " ++ p)
     | None => ret tt
     end ;;;
     ret (Some (content r)))
    (fun e =>
       if is_RequestException e then
         Some (print ("Failed to get screenshot: " ++ str_exn e) ;;; ret None)
       else None).

(** *** The poll loop *)

Definition time_time : M Q :=
  fun w => (Return (clock env (trace w)), mkWorld (self w) (trace w ++ [EvTime])).

Definition Qlt_bool (a b : Q) : bool := negb (Qle_bool b a).

(** [time.sleep(seconds)], which refuses a negative length. *)
Definition time_sleep (seconds : Q) : M unit :=
  if Qlt_bool seconds 0 then raise (Exn ValueError "sleep length must be non-negative")
  else emit (EvSleep seconds).

(** [status.get("is_active", True)]; only a [dict] has [get]. *)
Definition dict_get (j : json) (k : string) (default : json) : M json :=
  match j with
  | JDict d => ret match assoc k d with Some v => v | None => default end
  | _ => raise (Exn AttributeError "object has no attribute 'get'")
  end.

(** One turn of the [while] of [wait_for_completion] (lines 151 to 155):
    [Some r] when the function returns [r] in this turn, [None] when the
    loop goes round again. *)
Definition poll_once (start_time : Q) (timeout : Z) (poll_interval : Q)
    : M (option (option json)) :=
  now <- time_time ;;
  if Qlt_bool (now - start_time) (inject_Z timeout) then
    status <- get_status ;;
    active <- dict_get status "is_active" (JBool true) ;;
    if negb (truthy active) then
      answer <- get_latest_answer ;;
      ret (Some (Some answer))
    else
      time_sleep poll_interval ;;;
      ret None
  else ret (Some None).

(** The loop, with a bound on the number of turns: [None] when the bound
    is reached before the loop has ended. *)
Fixpoint poll_loop (fuel : nat) (start_time : Q) (timeout : Z) (poll_interval : Q)
    (w : World) : option (result (option json) * World) :=
  match fuel with
  | O => None
  | S fuel' =>
      match poll_once start_time timeout poll_interval w with
      | (Raise e, w') => Some (Raise e, w')
      | (Return (Some r), w') => Some (Return r, w')
      | (Return None, w') => poll_loop fuel' start_time timeout poll_interval w'
      end
  end.

Definition wait_for_completion (fuel : nat) (timeout : Z) (poll_interval : Q)
    (w : World) : option (result (option json) * World) :=
  match time_time w with
  | (Return start_time, w') => poll_loop fuel start_time timeout poll_interval w'
  | (Raise e, w') => Some (Raise e, w')
  end.

End Client.

(** ** The command line ([print_response], [demo_interactive], [main]) *)

Definition rule : string := repeat_char "="%char 60.

(** [json.dumps(data, indent=2, ensure_ascii=False)] is kept as the event
    [EvPrintJson data]; [print] raises when the text cannot be encoded,
    before any of it is written. *)
Definition print_response (data : json) (title : string) : M unit :=
  print (nl ++ rule) ;;;
  print ("  " ++ title) ;;;
  print rule ;;;
  if encodable data then emit (EvPrintJson data)
  else raise (Exn UnicodeEncodeError
                "'utf-8' codec can't encode character: surrogates not allowed").

(** The [Namespace] that [parser.parse_args()] returns. *)
Record Namespace : Type := mkNamespace {
  command : string;
  args : list string;
  url : string
}.

(** *** The argument parser (lines 245 to 281)

    [argparse] is a library.  This follows the configuration of the parser
    for the invocations of the usage line, [[command] [args...]] with
    [--url URL] in front or at the end; every other shape (abbreviated or
    repeated options, [-h], [--], options between positionals) is
    [Unmodelled]. *)

Definition choices : list string :=
  ["demo"; "health"; "query"; "status"; "screenshot"; "stop"; "history"].

Definition default_url : string := "http://localhost:7777".

Inductive parsed : Type :=
| Parsed (ns : Namespace)
| ParserExit (code : Z)
| Unmodelled.

Definition is_option_string (s : string) : bool :=
  match s with
  | String a _ => Ascii.eqb a "-"%char
  | EmptyString => false
  end.

Definition namespace_of (positionals : list string) (u : string) : parsed :=
  match positionals with
  | [] => Parsed (mkNamespace "demo" [] u)
  | c :: rest =>
      if existsb (String.eqb c) choices then Parsed (mkNamespace c rest u)
      else ParserExit 2
  end.

Fixpoint parse_tail (argv acc : list string) : parsed :=
  match argv with
  | [] => namespace_of (rev acc) default_url
  | a :: rest =>
      if (a =? "--url")%string then
        match rest with
        | [] => ParserExit 2
        | [u] => if is_option_string u then Unmodelled else namespace_of (rev acc) u
        | _ => Unmodelled
        end
      else if is_option_string a then Unmodelled
      else parse_tail rest (a :: acc)
  end.

Definition parse_args (argv : list string) : parsed :=
  match argv with
  | a :: u :: positionals =>
      if (a =? "--url")%string then
        if forallb (fun s => negb (is_option_string s)) (u :: positionals)
        then namespace_of positionals u
        else Unmodelled
      else parse_tail argv []
  | _ => parse_tail argv []
  end.

Section Commands.

Variable env : Env.

Definition demo_interactive : M unit :=
  print (nl ++ rule) ;;;
  print "  AgenticSeek API Interactive Demo" ;;;
  print rule ;;;
  print (nl ++ "This demo shows how to use the AgenticSeek API endpoints.") ;;;
  print ("Make sure the backend is running on port 7777." ++ nl) ;;;
  print "[1/5] Testing health endpoint..." ;;;
  health <- health_check env ;;
  print_response health "Health Check" ;;;
  err <- dict_get health "error" JNull ;;
  if truthy err then
    print (nl ++ "Error: Could not connect to the API. Make sure the backend is running.")
  else
    print (nl ++ "[2/5] Getting agent status...") ;;;
    status <- get_status env ;;
    print_response status "Agent Status" ;;;
    print (nl ++ "[3/5] Sending a sample query...") ;;;
    let sample_query := "Hello, how are you?" in
    print ("Query: " ++ sample_query) ;;;
    result <- query env sample_query 300 ;;
    print_response result "Query Result" ;;;
    print (nl ++ "[4/5] Getting latest answer...") ;;;
    answer <- get_latest_answer env ;;
    print_response answer "Latest Answer" ;;;
    print (nl ++ "[5/5] Checking for screenshot...") ;;;
    screenshot <- get_screenshot env None ;;
    match screenshot with
    | Some (b :: bs) =>
        print ("Screenshot available ("
               ++ str_int (Z.of_nat (List.length (b :: bs))) ++ " bytes)")
    | _ => print "No screenshot available"
    end ;;;
    print (nl ++ rule) ;;;
    print "  Demo Complete!" ;;;
    print rule ;;;
    print (nl ++ "Key API Endpoints:") ;;;
    print "  GET  /health           - Health check" ;;;
    print "  GET  /is_active        - Check if agent is busy" ;;;
    print "  GET  /stop             - Stop current operation" ;;;
    print "  GET  /latest_answer    - Get last response" ;;;
    print "  GET  /screenshot       - Download browser screenshot" ;;;
    print "  POST /query            - Send query to agents" ;;;
    print "".

(** Lines 283 to 310, run with the client of line 284 as [self]. *)
Definition dispatch (ns : Namespace) : M unit :=
  if (command ns =? "demo")%string then demo_interactive
  else if (command ns =? "health")%string then
    health <- health_check env ;;
    print_response health "Response"
  else if (command ns =? "query")%string then
    match args ns with
    | [] =>
        print "Error: Query requires text argument" ;;;
        print "Usage: python tutorial_poc.py query <text>" ;;;
        raise (SystemExit 1)
    | _ =>
        result <- query env (join " " (args ns)) 300 ;;
        print_response result "Response"
    end
  else if (command ns =? "status")%string then
    status <- get_status env ;;
    print_response status "Response"
  else if (command ns =? "screenshot")%string then
    let path := match args ns with p :: _ => Some p | [] => None end in
    _ <- get_screenshot env path ;;
    ret tt
  else if (command ns =? "stop")%string then
    result <- stop_agent env ;;
    print_response result "Response"
  else if (command ns =? "history")%string then
    answer <- get_latest_answer env ;;
    print_response answer "Response"
  else ret tt.

Definition main (ns : Namespace) (tr : list event) : result unit * World :=
  dispatch ns (mkWorld (__init__ (url ns)) tr).

(** The exit status of the interpreter: 120 when the last flush of
    standard output fails, whatever else happened; otherwise 0 when [main]
    returns, the code of [sys.exit], 1 for any other exception that
    reaches the top. *)
Definition exit_status {A} (flush_failed : bool) (r : result A) : Z :=
  if flush_failed then 120
  else match r with
       | Return _ => 0
       | Raise (SystemExit code) => code
       | Raise (Exn _ _) => 1
       end.

(** The exit status of a finished run of [main]. *)
Definition status_of (run : result unit * World) : Z :=
  exit_status (flush_fails env (trace (snd run))) (fst run).

(** The process: the environment variables [environ], the arguments [argv]
    and the trace so far give the exit status and the final trace.  The
    program never looks at [environ]. *)
Definition run_cli (environ : list (string * string)) (argv : list string)
    (tr : list event) : option (Z * list event) :=
  match parse_args argv with
  | Parsed ns => let run := main ns tr in Some (status_of run, trace (snd run))
  | ParserExit code => Some (code, tr)
  | Unmodelled => None
  end.

End Commands.

(** ** The operations of the client, as one family *)

Inductive operation : Type :=
| Health
| Status
| Stop
| LatestAnswer
| Query (text : string) (timeout : Z)
| Screenshot (save_path : option string).

(** What an operation hands back: a JSON document, bytes, or [None]. *)
Inductive value : Type :=
| VJson (j : json)
| VBytes (b : bytes)
| VNone.

Definition returns_envelope (op : operation) : bool :=
  match op with
  | Screenshot _ => false
  | _ => true
  end.

Definition run_operation (env : Env) (op : operation) : M value :=
  match op with
  | Health => j <- health_check env ;; ret (VJson j)
  | Status => j <- get_status env ;; ret (VJson j)
  | Stop => j <- stop_agent env ;; ret (VJson j)
  | LatestAnswer => j <- get_latest_answer env ;; ret (VJson j)
  | Query text timeout => j <- query env text timeout ;; ret (VJson j)
  | Screenshot save_path =>
      b <- get_screenshot env save_path ;;
      ret match b with Some b => VBytes b | None => VNone end
  end.

(** The request an operation sends for a client [c]. *)
Definition request_of (c : AgenticSeekClient) (op : operation) : request :=
  match op with
  | Health => mkRequest "GET" (base_url c ++ "/health") None None
  | Status => mkRequest "GET" (base_url c ++ "/is_active") None None
  | Stop => mkRequest "GET" (base_url c ++ "/stop") None None
  | LatestAnswer => mkRequest "GET" (base_url c ++ "/latest_answer") None None
  | Query text timeout =>
      mkRequest "POST" (base_url c ++ "/query")
                (Some (JDict [("query", JStr text)])) (Some timeout)
  | Screenshot _ => mkRequest "GET" (base_url c ++ "/screenshot") None None
  end.

Definition value_has_key (k : string) (v : value) : bool :=
  match v with
  | VJson j => has_key k j
  | _ => false
  end.

Definition value_lookup (k : string) (v : value) : option json :=
  match v with
  | VJson (JDict d) => assoc k d
  | _ => None
  end.

Definition value_keys (v : value) : list string :=
  match v with
  | VJson j => dict_keys j
  | _ => []
  end.

Definition is_2xx (code : Z) : bool := (200 <=? code) && (code <? 300).

Definition is_4xx_5xx (code : Z) : bool := (400 <=? code) && (code <? 600).

Definition log (w : World) (e : list event) : World :=
  mkWorld (self w) (trace w ++ e).

(** ** Mock surroundings for concrete runs *)

(** Seconds slept so far: the reading of a clock that only advances while
    the program sleeps. *)
Fixpoint slept (tr : list event) : Q :=
  match tr with
  | [] => 0
  | EvSleep d :: tr' => d + slept tr'
  | _ :: tr' => slept tr'
  end.

(** The transport in front of a mock server: it checks the timeout as
    [requests] does and hands every other request to the server. *)
Definition transport (server : request -> outcome) (rq : request) : outcome :=
  match timeout_error (req_timeout rq) with
  | Some (a, msg) => Refused a msg
  | None => server rq
  end.

(** A mock server answering by request alone, a clock driven by the
    sleeps, a file system on which nothing fails and a standard output
    that can be flushed. *)
Definition mock (server : request -> outcome) : Env :=
  mkEnv (fun _ rq => transport server rq) slept
        (fun _ _ => None) (fun _ _ _ => None) (fun _ _ => None) (fun _ => false).

Definition ok_json (j : json) : outcome :=
  Responded (mkResponse 200 "OK" [] (Some j)).

Definition w0 : World := mkWorld (__init__ default_url) [].

(** ** Vocabulary of the statements *)

Definition screenshot_request (w : World) : request :=
  mkRequest "GET" (base_url (self w) ++ "/screenshot") None None.


(** Opening, writing and closing the file at [save_path] go through, from
    trace [tr] on. *)
Definition file_ops_succeed (env : Env) (save_path : option string)
    (tr : list event) (data : bytes) : Prop :=
  match path_given save_path with
  | Some p => has_nul p = false
              /\ open_fails env tr p = None
              /\ write_fails env (tr ++ [EvOpen p]) p data = None
              /\ close_fails env (tr ++ [EvOpen p; EvWrite p data]) p = None
  | None => True
  end.

(** Mock servers that give the same answer to every request. *)
Definition always (o : outcome) : request -> outcome := fun _ => o.

Definition not_found : response := mkResponse 404 "Not Found" [] None.

Definition not_modified_body : json := JDict [("status", JStr "ok")].

Definition not_modified : response :=
  mkResponse 304 "Not Modified" [] (Some not_modified_body).

Definition health_body : json :=
  JDict [("status", JStr "healthy"); ("version", JStr "0.1.0")].

Definition healthy : response := mkResponse 200 "OK" [] (Some health_body).

(** A computation that leaves the receiver as it was. *)
Definition keeps_self {A} (m : M A) : Prop :=
  forall w, self (snd (m w)) = self w.

Definition is_mapping (j : json) : Prop := exists d, j = JDict d.

(** *** The poll loop *)



(** The timeout has not yet elapsed when the clock is read in world [w]. *)
Definition in_time (env : Env) (start : Q) (timeout : Z) (w : World) : bool :=
  Qlt_bool (clock env (trace w) - start) (inject_Z timeout).





Definition answer_body : json := JDict [("answer", JStr "4")].





(** *** The command line *)


(** The requests of a trace, in order. *)
Fixpoint requests_in (tr : list event) : list request :=
  match tr with
  | [] => []
  | EvRequest rq :: tr' => rq :: requests_in tr'
  | _ :: tr' => requests_in tr'
  end.

(** A server whose [/health] answers with a JSON array. *)
Definition array_health : response := mkResponse 200 "OK" [] (Some (JList [])).


(** *** Further vocabulary *)

(** The files a trace opens, and the files it closes, in order. *)
Fixpoint opened (tr : list event) : list string :=
  match tr with
  | [] => []
  | EvOpen p :: tr' => p :: opened tr'
  | _ :: tr' => opened tr'
  end.

Fixpoint closed (tr : list event) : list string :=
  match tr with
  | [] => []
  | EvClose p :: tr' => p :: closed tr'
  | _ :: tr' => closed tr'
  end.

(** The JSON documents a trace prints, in order. *)
Fixpoint printed_json (tr : list event) : list json :=
  match tr with
  | [] => []
  | EvPrintJson j :: tr' => j :: printed_json tr'
  | _ :: tr' => printed_json tr'
  end.

(** The seconds an event sleeps. *)
Definition sleep_of (e : event) : Q :=
  match e with
  | EvSleep d => d
  | _ => 0
  end.

(** A clock that never runs backwards and that a sleep advances by at
    least its length. *)
Definition clock_advances (env : Env) : Prop :=
  forall tr e, (clock env tr + sleep_of e <= clock env (tr ++ [e]))%Q.



(** A computation that never raises [SystemExit]. *)
Definition never_exits {A} (m : M A) : Prop :=
  forall w code, fst (m w) <> Raise (SystemExit code).



(** The client operation a command line stands for; none for [demo] and
    for [query] without text. *)
Definition operation_of (ns : Namespace) : option operation :=
  if (command ns =? "health")%string then Some Health
  else if (command ns =? "query")%string then
    match args ns with
    | [] => None
    | _ => Some (Query (join " " (args ns)) 300)
    end
  else if (command ns =? "status")%string then Some Status
  else if (command ns =? "screenshot")%string then
    Some (Screenshot match args ns with p :: _ => Some p | [] => None end)
  else if (command ns =? "stop")%string then Some Stop
  else if (command ns =? "history")%string then Some LatestAnswer
  else None.

(** What [print_response(data)] adds to the trace. *)
Definition response_lines (title : string) (data : json) : list event :=
  [EvPrint (nl ++ rule); EvPrint ("  " ++ title); EvPrint rule; EvPrintJson data].

(** A page that is no JSON document. *)
Definition html_page : response := mkResponse 200 "OK" [] None.

(** *** Outcomes, by what the program makes of them *)

(** [_make_request] returns on this outcome: it does unless the arguments
    are refused or [json()] raises a [decoder_error] on an accepted status. *)
Definition returns_document (o : outcome) : bool :=
  match o with
  | Failed _ _ => true
  | Responded _ => true
  | Refused _ _ => false
  | RespondedUnreadable r _ _ => is_4xx_5xx (status_code r)
  end.

(** [_make_request] returns on this outcome, and what it returns can be
    printed: the body of an accepted response holds no lone surrogate. *)
Definition prints_well (o : outcome) : bool :=
  match o with
  | Responded r =>
      is_4xx_5xx (status_code r)
      || match json_value r with Some j => encodable j | None => true end
  | _ => returns_document o
  end.

(** Moreover what it returns is a mapping. *)
Definition maps_well (o : outcome) : bool :=
  prints_well o
  && match o with
     | Responded r =>
         is_4xx_5xx (status_code r)
         || match json_value r with
            | Some (JDict _) => true
            | Some _ => false
            | None => true
            end
     | _ => true
     end.

(** [session.get] does not refuse the call. *)
Definition not_refused (o : outcome) : bool :=
  match o with
  | Refused _ _ => false
  | _ => true
  end.

(** The transport checks the timeout as [requests] does. *)
Definition validates_timeouts (env : Env) : Prop :=
  forall tr rq a msg,
    timeout_error (req_timeout rq) = Some (a, msg) -> http env tr rq = Refused a msg.


(** The response [get_screenshot] works on: [json()] is never called, so a
    response that would not decode is as good as any. *)
Definition screenshot_response (env : Env) (w : World) : option response :=
  match http env (trace w) (screenshot_request w) with
  | Responded r => Some r
  | RespondedUnreadable r _ _ => Some r
  | _ => None
  end.

(** [get_screenshot(save_path)] returns in world [w]: the call is not
    refused and, on a status that is accepted, the file operations go
    through. *)
Definition screenshot_returns (env : Env) (save_path : option string)
    (w : World) : Prop :=
  not_refused (http env (trace w) (screenshot_request w)) = true
  /\ forall r,
       screenshot_response env w = Some r ->
       is_4xx_5xx (status_code r) = false ->
       file_ops_succeed env save_path
         (trace w ++ [EvRequest (screenshot_request w)]) (content r).




(** A standard output that cannot be flushed at the end. *)
Definition closed_pipe (server : request -> outcome) : Env :=
  mkEnv (fun _ rq => transport server rq) slept
        (fun _ _ => None) (fun _ _ _ => None) (fun _ _ => None) (fun _ => true).

(** ** Properties of [_make_request] *)

Section RequestFacts.

Variable env : Env.

Lemma raise_for_status_ok (u : string) (r : response) (w : World) :
  is_4xx_5xx (status_code r) = false ->
  raise_for_status u r w = (Return tt, w).
Proof.
  unfold is_4xx_5xx, raise_for_status. intros H.
  destruct ((400 <=? status_code r) && (status_code r <? 500)) eqn:E1.
  - exfalso. apply andb_true_iff in E1 as [A B].
    apply andb_false_iff in H as [H | H]; [congruence|].
    apply Z.ltb_lt in B. apply Z.ltb_ge in H. lia.
  - destruct ((500 <=? status_code r) && (status_code r <? 600)) eqn:E2; [|reflexivity].
    exfalso. apply andb_true_iff in E2 as [A B].
    apply andb_false_iff in H as [H | H]; [|congruence].
    apply Z.leb_le in A. apply Z.leb_gt in H. lia.
Qed.

Lemma raise_for_status_error (u : string) (r : response) (w : World) :
  is_4xx_5xx (status_code r) = true ->
  exists msg, raise_for_status u r w = (Raise (Exn HTTPError msg), w).
Proof.
  unfold is_4xx_5xx, raise_for_status. intros H.
  destruct ((400 <=? status_code r) && (status_code r <? 500)) eqn:E1.
  - eexists; reflexivity.
  - destruct ((500 <=? status_code r) && (status_code r <? 600)) eqn:E2.
    + eexists; reflexivity.
    + exfalso. apply andb_true_iff in H as [A B].
      apply Z.leb_le in A. apply Z.ltb_lt in B.
      apply andb_false_iff in E1 as [E1 | E1];
        apply andb_false_iff in E2 as [E2 | E2];
        try apply Z.leb_gt in E1; try apply Z.ltb_ge in E1;
        try apply Z.leb_gt in E2; try apply Z.ltb_ge in E2; lia.
Qed.

(** A transport failure becomes the envelope with the one key [error]. *)
Lemma make_request_failed (m e : string) (js : option json) (t : option Z)
    (w : World) (f : transport_failure) (msg : string) :
  http env (trace w) (mkRequest m (base_url (self w) ++ e) js t) = Failed f msg ->
  _make_request env m e js t w
  = (Return (JDict [("error", JStr msg)]),
     log w [EvRequest (mkRequest m (base_url (self w) ++ e) js t)]).
Proof.
  intros H. unfold _make_request, bind, get_self, session_request. simpl.
  rewrite H. destruct f; reflexivity.
Qed.

(** A refusal of the arguments is not caught. *)
Lemma make_request_refused (m e : string) (js : option json) (t : option Z)
    (w : World) (a : argument_error) (msg : string) :
  http env (trace w) (mkRequest m (base_url (self w) ++ e) js t) = Refused a msg ->
  _make_request env m e js t w
  = (Raise (Exn (argument_class a) msg),
     log w [EvRequest (mkRequest m (base_url (self w) ++ e) js t)]).
Proof.
  intros H. unfold _make_request, bind, get_self, session_request. simpl.
  rewrite H. destruct a; reflexivity.
Qed.

(** A status that [raise_for_status] rejects becomes the envelope with
    [error] and [status_code], whatever [json()] would do. *)
Lemma make_request_rejected_status (m e : string) (js : option json) (t : option Z)
    (w : World) (r : response) (crash : option exn) :
  session_request env (mkRequest m (base_url (self w) ++ e) js t) w
  = (Return (r, crash), log w [EvRequest (mkRequest m (base_url (self w) ++ e) js t)]) ->
  is_4xx_5xx (status_code r) = true ->
  exists msg,
    _make_request env m e js t w
    = (Return (JDict [("error", JStr msg); ("status_code", JInt (status_code r))]),
       log w [EvRequest (mkRequest m (base_url (self w) ++ e) js t)]).
Proof.
  intros H Hc. unfold _make_request, bind, get_self. simpl.
  rewrite H. unfold try_except, bind. simpl.
  destruct (raise_for_status_error (base_url (self w) ++ e) r
              (log w [EvRequest (mkRequest m (base_url (self w) ++ e) js t)])
              Hc) as [msg Hm].
  rewrite Hm. simpl. exists msg. reflexivity.
Qed.

Lemma session_request_responded (rq : request) (w : World) (r : response) :
  http env (trace w) rq = Responded r ->
  session_request env rq w = (Return (r, None), log w [EvRequest rq]).
Proof. intros H. unfold session_request. rewrite H. reflexivity. Qed.

Lemma session_request_unreadable (rq : request) (w : World) (r : response)
    (d : decoder_error) (msg : string) :
  http env (trace w) rq = RespondedUnreadable r d msg ->
  session_request env rq w
  = (Return (r, Some (Exn (decoder_class d) msg)), log w [EvRequest rq]).
Proof. intros H. unfold session_request. rewrite H. reflexivity. Qed.

Lemma make_request_http_error (m e : string) (js : option json) (t : option Z)
    (w : World) (r : response) :
  http env (trace w) (mkRequest m (base_url (self w) ++ e) js t) = Responded r ->
  is_4xx_5xx (status_code r) = true ->
  exists msg,
    _make_request env m e js t w
    = (Return (JDict [("error", JStr msg); ("status_code", JInt (status_code r))]),
       log w [EvRequest (mkRequest m (base_url (self w) ++ e) js t)]).
Proof.
  intros H Hc.
  apply (make_request_rejected_status m e js t w r None); [| exact Hc].
  apply session_request_responded. exact H.
Qed.

(** Any other status with a JSON body gives the body. *)
Lemma make_request_body (m e : string) (js : option json) (t : option Z)
    (w : World) (r : response) (B : json) :
  http env (trace w) (mkRequest m (base_url (self w) ++ e) js t) = Responded r ->
  is_4xx_5xx (status_code r) = false ->
  json_value r = Some B ->
  _make_request env m e js t w
  = (Return B, log w [EvRequest (mkRequest m (base_url (self w) ++ e) js t)]).
Proof.
  intros H Hc HB. unfold _make_request, bind, get_self. simpl.
  rewrite (session_request_responded _ w r H). unfold try_except, bind. simpl.
  rewrite raise_for_status_ok by exact Hc.
  unfold response_json. simpl. rewrite HB. reflexivity.
Qed.

(** A body that is no JSON document gives the envelope with [error] alone. *)
Lemma make_request_undecodable (m e : string) (js : option json) (t : option Z)
    (w : World) (r : response) :
  http env (trace w) (mkRequest m (base_url (self w) ++ e) js t) = Responded r ->
  is_4xx_5xx (status_code r) = false ->
  json_value r = None ->
  exists msg,
    _make_request env m e js t w
    = (Return (JDict [("error", JStr msg)]),
       log w [EvRequest (mkRequest m (base_url (self w) ++ e) js t)]).
Proof.
  intros H Hc HB. unfold _make_request, bind, get_self. simpl.
  rewrite (session_request_responded _ w r H). unfold try_except, bind. simpl.
  rewrite raise_for_status_ok by exact Hc.
  unfold response_json. simpl. rewrite HB. simpl. eexists. reflexivity.
Qed.

(** What [json()] raises on a number or a nesting it cannot take is not
    caught. *)
Lemma make_request_unreadable (m e : string) (js : option json) (t : option Z)
    (w : World) (r : response) (d : decoder_error) (msg : string) :
  http env (trace w) (mkRequest m (base_url (self w) ++ e) js t)
  = RespondedUnreadable r d msg ->
  is_4xx_5xx (status_code r) = false ->
  _make_request env m e js t w
  = (Raise (Exn (decoder_class d) msg),
     log w [EvRequest (mkRequest m (base_url (self w) ++ e) js t)]).
Proof.
  intros H Hc. unfold _make_request, bind, get_self. simpl.
  rewrite (session_request_unreadable _ w r d msg H). unfold try_except, bind. simpl.
  rewrite raise_for_status_ok by exact Hc.
  unfold response_json. simpl. destruct d; reflexivity.
Qed.

(** Whatever comes of it, [_make_request] calls [session.request] once and
    leaves the client as it was. *)
Lemma make_request_sent (m e : string) (js : option json) (t : option Z) (w : World) :
  exists r,
    _make_request env m e js t w
    = (r, log w [EvRequest (mkRequest m (base_url (self w) ++ e) js t)]).
Proof.
  destruct (http env (trace w) (mkRequest m (base_url (self w) ++ e) js t))
    as [f msg | r | a msg | r d msg] eqn:H.
  - eexists. apply make_request_failed with (f := f). exact H.
  - destruct (is_4xx_5xx (status_code r)) eqn:Hc.
    + destruct (make_request_http_error m e js t w r H Hc) as [msg Hm].
      eexists. exact Hm.
    + destruct (json_value r) as [B |] eqn:HB.
      * eexists. apply make_request_body with (r := r); eassumption.
      * destruct (make_request_undecodable m e js t w r H Hc HB) as [msg Hm].
        eexists. exact Hm.
  - eexists. apply make_request_refused. exact H.
  - destruct (is_4xx_5xx (status_code r)) eqn:Hc.
    + destruct (make_request_rejected_status m e js t w r
                  (Some (Exn (decoder_class d) msg))
                  (session_request_unreadable _ w r d msg H) Hc) as [msg' Hm].
      eexists. exact Hm.
    + eexists. apply (make_request_unreadable m e js t w r d msg H Hc).
Qed.

(** On an outcome that [prints_well], [_make_request] returns a document
    that can be printed; on one that [maps_well], a mapping. *)
Lemma make_request_prints_well (m e : string) (js : option json) (t : option Z)
    (w : World) :
  prints_well (http env (trace w) (mkRequest m (base_url (self w) ++ e) js t)) = true ->
  exists j,
    _make_request env m e js t w
    = (Return j, log w [EvRequest (mkRequest m (base_url (self w) ++ e) js t)])
    /\ encodable j = true
    /\ (maps_well (http env (trace w) (mkRequest m (base_url (self w) ++ e) js t)) = true ->
        is_mapping j).
Proof.
  unfold maps_well.
  destruct (http env (trace w) (mkRequest m (base_url (self w) ++ e) js t))
    as [f msg | r | a msg | r d msg] eqn:H; simpl; intros Hp.
  - eexists. split; [apply make_request_failed with (f := f); exact H|].
    split; [reflexivity|]. intros _. eexists. reflexivity.
  - destruct (is_4xx_5xx (status_code r)) eqn:Hc; simpl in *.
    + destruct (make_request_http_error m e js t w r H Hc) as [msg Hm].
      eexists. split; [exact Hm|]. split; [reflexivity|]. intros _. eexists. reflexivity.
    + destruct (json_value r) as [B |] eqn:HB.
      * exists B. split; [apply make_request_body with (r := r); assumption|].
        split; [exact Hp|]. rewrite Hp. simpl.
        destruct B; try discriminate. intros _. eexists. reflexivity.
      * destruct (make_request_undecodable m e js t w r H Hc HB) as [msg Hm].
        eexists. split; [exact Hm|]. split; [reflexivity|]. intros _. eexists. reflexivity.
  - discriminate Hp.
  - destruct (make_request_rejected_status m e js t w r
                (Some (Exn (decoder_class d) msg))
                (session_request_unreadable _ w r d msg H) Hp) as [msg' Hm].
    eexists. split; [exact Hm|]. split; [reflexivity|]. intros _. eexists. reflexivity.
Qed.

(** On an outcome on which it [returns_document], [_make_request] returns. *)
Lemma make_request_returns (m e : string) (js : option json) (t : option Z)
    (w : World) :
  returns_document (http env (trace w) (mkRequest m (base_url (self w) ++ e) js t)) = true ->
  exists j,
    _make_request env m e js t w
    = (Return j, log w [EvRequest (mkRequest m (base_url (self w) ++ e) js t)]).
Proof.
  intros Hr.
  destruct (http env (trace w) (mkRequest m (base_url (self w) ++ e) js t))
    as [f msg | r | a msg | r d msg] eqn:H; simpl in Hr.
  - eexists. apply make_request_failed with (f := f). exact H.
  - destruct (is_4xx_5xx (status_code r)) eqn:Hc.
    + destruct (make_request_http_error m e js t w r H Hc) as [msg Hm].
      eexists. exact Hm.
    + destruct (json_value r) as [B |] eqn:HB.
      * eexists. apply make_request_body with (r := r); eassumption.
      * destruct (make_request_undecodable m e js t w r H Hc HB) as [msg Hm].
        eexists. exact Hm.
  - discriminate Hr.
  - destruct (make_request_rejected_status m e js t w r
                (Some (Exn (decoder_class d) msg))
                (session_request_unreadable _ w r d msg H) Hr) as [msg' Hm].
    eexists. exact Hm.
Qed.

End RequestFacts.

(** ** Properties of [get_screenshot] *)

Section ScreenshotFacts.

Variable env : Env.

Lemma get_screenshot_failed (sp : option string) (w : World)
    (f : transport_failure) (msg : string) :
  http env (trace w) (screenshot_request w) = Failed f msg ->
  get_screenshot env sp w
  = (Return None,
     log w [EvRequest (screenshot_request w);
            EvPrint ("Failed to get screenshot: " ++ msg)]).
Proof.
  intros H. unfold screenshot_request in H.
  unfold get_screenshot, bind, get_self, try_except, session_request. simpl.
  rewrite H. unfold log. simpl.
  destruct f; simpl; rewrite <- app_assoc; reflexivity.
Qed.

Lemma get_screenshot_refused (sp : option string) (w : World)
    (a : argument_error) (msg : string) :
  http env (trace w) (screenshot_request w) = Refused a msg ->
  get_screenshot env sp w
  = (Raise (Exn (argument_class a) msg), log w [EvRequest (screenshot_request w)]).
Proof.
  intros H. unfold screenshot_request in H.
  unfold get_screenshot, bind, get_self, try_except, session_request. simpl.
  rewrite H. destruct a; reflexivity.
Qed.

Lemma screenshot_response_session (w : World) (r : response) :
  screenshot_response env w = Some r ->
  exists crash,
    session_request env (screenshot_request w) w
    = (Return (r, crash), log w [EvRequest (screenshot_request w)]).
Proof.
  unfold screenshot_response, session_request. intros H.
  destruct (http env (trace w) (screenshot_request w)) as [| r0 | | r0 d msg];
    try discriminate; injection H as ->; eexists; reflexivity.
Qed.

Lemma get_screenshot_rejected_status (sp : option string) (w : World) (r : response) :
  screenshot_response env w = Some r ->
  is_4xx_5xx (status_code r) = true ->
  exists msg,
    get_screenshot env sp w
    = (Return None,
       log w [EvRequest (screenshot_request w);
              EvPrint ("Failed to get screenshot: " ++ msg)]).
Proof.
  intros H Hc. destruct (screenshot_response_session w r H) as [crash Hs].
  unfold screenshot_request in *.
  unfold get_screenshot, bind, get_self, try_except. simpl.
  rewrite Hs. simpl.
  destruct (raise_for_status_error (base_url (self w) ++ "/screenshot") r
              (log w [EvRequest (mkRequest "GET" (base_url (self w) ++ "/screenshot")
                                   None None)])
              Hc) as [msg Hm].
  rewrite Hm. simpl. exists msg. unfold log. simpl.
  rewrite <- app_assoc. reflexivity.
Qed.

Lemma get_screenshot_http_error (sp : option string) (w : World) (r : response) :
  http env (trace w) (screenshot_request w) = Responded r ->
  is_4xx_5xx (status_code r) = true ->
  exists msg,
    get_screenshot env sp w
    = (Return None,
       log w [EvRequest (screenshot_request w);
              EvPrint ("Failed to get screenshot: " ++ msg)]).
Proof.
  intros H. apply get_screenshot_rejected_status.
  unfold screenshot_response. rewrite H. reflexivity.
Qed.

(** What [with_open_write] raises is no [RequestException]. *)
Lemma with_open_write_raises (p : string) (data : bytes) (w w' : World) (e : exn) :
  with_open_write env p data w = (Raise e, w') -> is_RequestException e = false.
Proof.
  unfold with_open_write.
  destruct (has_nul p); [intros H; injection H as <- _; reflexivity|].
  destruct (open_fails env (trace w) p); [intros H; injection H as <- _; reflexivity|].
  destruct (write_fails env _ p data).
  - destruct (close_fails env _ p); intros H; injection H as <- _; reflexivity.
  - destruct (close_fails env _ p); intros H; [injection H as <- _; reflexivity|].
    discriminate H.
Qed.

(** After a response with an accepted status, [get_screenshot] is its file
    part. *)
Lemma get_screenshot_accepted (sp : option string) (w : World) (r : response) :
  screenshot_response env w = Some r ->
  is_4xx_5xx (status_code r) = false ->
  get_screenshot env sp w
  = match path_given sp with
    | None => (Return (Some (content r)), log w [EvRequest (screenshot_request w)])
    | Some p =>
        match with_open_write env p (content r)
                (log w [EvRequest (screenshot_request w)]) with
        | (Return _, w') =>
            (Return (Some (content r)),
             log w' [EvPrint ("Screenshot saved to: " ++ p)])
        | (Raise e, w') => (Raise e, w')
        end
    end.
Proof.
  intros H Hc. destruct (screenshot_response_session w r H) as [crash Hs].
  unfold screenshot_request in *.
  unfold get_screenshot, bind, get_self, try_except. simpl.
  rewrite Hs. simpl. rewrite raise_for_status_ok by exact Hc.
  destruct (path_given sp) as [p |]; [| reflexivity].
  destruct (with_open_write env p (content r) _) as [[[] | e] w'] eqn:E.
  - reflexivity.
  - rewrite (with_open_write_raises _ _ _ _ _ E). reflexivity.
Qed.


End ScreenshotFacts.

(** ** The operations against a simulated server *)

Section OperationFacts.

Variable env : Env.

Ltac envelope_op :=
  unfold run_operation, health_check, get_status, stop_agent,
         get_latest_answer, query, bind, ret.

(** C5.  For each of [health_check], [get_status], [stop_agent],
    [get_latest_answer] and [query], a simulated 200 response that carries
    the JSON body [B] makes the operation return [B] itself. *)
Theorem envelope_operation_returns_body (op : operation) (w : World)
    (r : response) (B : json) :
  returns_envelope op = true ->
  http env (trace w) (request_of (self w) op) = Responded r ->
  status_code r = 200 ->
  json_value r = Some B ->
  run_operation env op w
  = (Return (VJson B), log w [EvRequest (request_of (self w) op)]).
Proof.
  intros Hop H Hc HB.
  assert (Hs : is_4xx_5xx (status_code r) = false) by (rewrite Hc; reflexivity).
  destruct op; simpl in Hop; try discriminate; simpl in H; envelope_op;
    rewrite (make_request_body env _ _ _ _ w r B H Hs HB); reflexivity.
Qed.

(** C1, amended.  A simulated response whose status [raise_for_status]
    rejects (400 to 599) makes each of the five envelope operations return
    the mapping with exactly the keys [error] and [status_code], the latter
    equal to the simulated code; [get_screenshot] returns [None]. *)
Theorem http_error_status_envelope (op : operation) (w : World) (r : response) :
  http env (trace w) (request_of (self w) op) = Responded r ->
  is_4xx_5xx (status_code r) = true ->
  exists v w',
    run_operation env op w = (Return v, w')
    /\ if returns_envelope op
       then value_keys v = ["error"; "status_code"]
            /\ value_has_key "error" v = true
            /\ value_lookup "status_code" v = Some (JInt (status_code r))
       else v = VNone.
Proof.
  intros H Hc.
  destruct op; simpl in H;
    try (destruct (make_request_http_error env _ _ _ _ w r H Hc) as [msg Hm];
         envelope_op; rewrite Hm; do 2 eexists; split; [reflexivity|];
         simpl; repeat split; reflexivity).
  destruct (get_screenshot_http_error env save_path w r H Hc) as [msg Hm].
  unfold run_operation, bind, ret. rewrite Hm.
  do 2 eexists. split; reflexivity.
Qed.

(** C3, amended.  A simulated transport failure makes each of the five
    envelope operations return the mapping whose only key is [error];
    [get_screenshot] returns [None].  In both cases the operation returns:
    the exception does not reach the caller. *)
Theorem transport_failure_envelope (op : operation) (w : World)
    (f : transport_failure) (msg : string) :
  http env (trace w) (request_of (self w) op) = Failed f msg ->
  exists v w',
    run_operation env op w = (Return v, w')
    /\ if returns_envelope op
       then v = VJson (JDict [("error", JStr msg)])
       else v = VNone.
Proof.
  intros H.
  destruct op; simpl in H;
    try (envelope_op; rewrite (make_request_failed env _ _ _ _ w f msg H);
         do 2 eexists; split; reflexivity).
  unfold run_operation, bind, ret.
  rewrite (get_screenshot_failed env save_path w f msg H).
  do 2 eexists. split; reflexivity.
Qed.

End OperationFacts.

Lemma envelope_operation_returns_body_witness :
  run_operation (mock (always (Responded healthy))) Health w0
  = (Return (VJson health_body), log w0 [EvRequest (request_of (self w0) Health)]).
Proof.
  apply (envelope_operation_returns_body (mock (always (Responded healthy)))
           Health w0 healthy health_body); reflexivity.
Defined.

Lemma http_error_status_envelope_witness :
  is_4xx_5xx 404 = true
  /\ exists v w',
      run_operation (mock (always (Responded not_found))) (Query "2+2" 300) w0
      = (Return v, w')
      /\ value_keys v = ["error"; "status_code"]
      /\ value_has_key "error" v = true
      /\ value_lookup "status_code" v = Some (JInt 404).
Proof.
  split; [reflexivity|].
  apply (http_error_status_envelope (mock (always (Responded not_found)))
           (Query "2+2" 300) w0 not_found); reflexivity.
Defined.

(** C1 as stated fails twice: on a 404, [get_screenshot] returns [None],
    which has no key at all; and a 304, which is not 2xx, is not rejected
    by [raise_for_status], so [health_check] returns the body as it is. *)
Lemma non_2xx_without_error_key :
  (is_2xx 404 = false
   /\ fst (run_operation (mock (always (Responded not_found))) (Screenshot None) w0)
      = Return VNone
   /\ value_has_key "error" VNone = false
   /\ value_has_key "status_code" VNone = false)
  /\ (is_2xx 304 = false
      /\ fst (run_operation (mock (always (Responded not_modified))) Health w0)
         = Return (VJson not_modified_body)
      /\ value_has_key "error" (VJson not_modified_body) = false
      /\ value_has_key "status_code" (VJson not_modified_body) = false).
Proof. repeat split; reflexivity. Qed.

Lemma transport_failure_envelope_witness :
  exists v w',
    run_operation (mock (always (Failed DNSFailure "Name or service not known")))
                  Status w0 = (Return v, w')
    /\ v = VJson (JDict [("error", JStr "Name or service not known")]).
Proof.
  apply (transport_failure_envelope
           (mock (always (Failed DNSFailure "Name or service not known")))
           Status w0 DNSFailure "Name or service not known"); reflexivity.
Defined.

(** C3 as stated fails for [get_screenshot]: on a refused connection it
    returns [None], a result without an [error] key. *)
Lemma screenshot_failure_without_error_key :
  fst (run_operation (mock (always (Failed ConnectionRefused "Connection refused")))
                     (Screenshot None) w0)
  = Return VNone
  /\ value_has_key "error" VNone = false.
Proof. split; reflexivity. Qed.
(** ** The receiver is never assigned to *)

Section KeepsSelf.

Variable env : Env.

Lemma keeps_ret {A} (a : A) : keeps_self (ret a).
Proof. intros w. reflexivity. Qed.

Lemma keeps_raise {A} (e : exn) : keeps_self (@raise A e).
Proof. intros w. reflexivity. Qed.

Lemma keeps_emit (e : event) : keeps_self (emit e).
Proof. intros w. reflexivity. Qed.

Lemma keeps_print (line : string) : keeps_self (print line).
Proof. apply keeps_emit. Qed.

Lemma keeps_get_self : keeps_self get_self.
Proof. intros w. reflexivity. Qed.

Lemma keeps_bind {A B} (m : M A) (k : A -> M B) :
  keeps_self m -> (forall a, keeps_self (k a)) -> keeps_self (bind m k).
Proof.
  intros Hm Hk w. unfold bind. specialize (Hm w).
  destruct (m w) as [[a | e] w1]; simpl in *.
  - rewrite Hk. exact Hm.
  - exact Hm.
Qed.

Lemma keeps_try_except {A} (m : M A) (h : exn -> option (M A)) :
  keeps_self m -> (forall e k, h e = Some k -> keeps_self k) ->
  keeps_self (try_except m h).
Proof.
  intros Hm Hh w. unfold try_except. specialize (Hm w).
  destruct (m w) as [[a | e] w1]; simpl in *.
  - exact Hm.
  - destruct (h e) as [k |] eqn:E; simpl.
    + rewrite (Hh e k E). exact Hm.
    + exact Hm.
Qed.

Lemma keeps_session_request (rq : request) : keeps_self (session_request env rq).
Proof.
  intros w. unfold session_request.
  destruct (http env (trace w) rq); reflexivity.
Qed.

Lemma keeps_raise_for_status (u : string) (r : response) :
  keeps_self (raise_for_status u r).
Proof.
  intros w. unfold raise_for_status.
  destruct ((400 <=? status_code r) && (status_code r <? 500)); [reflexivity|].
  destruct ((500 <=? status_code r) && (status_code r <? 600)); reflexivity.
Qed.

Lemma keeps_with_open_write (path : string) (data : bytes) :
  keeps_self (with_open_write env path data).
Proof.
  intros w. unfold with_open_write.
  destruct (has_nul path); [reflexivity|].
  destruct (open_fails env (trace w) path); [reflexivity|].
  destruct (write_fails env _ path data);
    destruct (close_fails env _ path); reflexivity.
Qed.

Lemma keeps_time_sleep (seconds : Q) : keeps_self (time_sleep seconds).
Proof.
  intros w. unfold time_sleep. destruct (Qlt_bool seconds 0); reflexivity.
Qed.

Lemma keeps_make_request (m e : string) (js : option json) (t : option Z) :
  keeps_self (_make_request env m e js t).
Proof.
  intros w. destruct (make_request_sent env m e js t w) as [r Hr].
  rewrite Hr. reflexivity.
Qed.

Lemma keeps_get_screenshot (sp : option string) : keeps_self (get_screenshot env sp).
Proof.
  unfold get_screenshot.
  apply keeps_bind; [apply keeps_get_self | intros c].
  apply keeps_try_except.
  - apply keeps_bind; [apply keeps_session_request | intros r].
    apply keeps_bind; [apply keeps_raise_for_status | intros _].
    apply keeps_bind; [| intros _; apply keeps_ret].
    destruct (path_given sp) as [p |]; [| apply keeps_ret].
    apply keeps_bind; [apply keeps_with_open_write | intros _; apply keeps_print].
  - intros e k Hk. destruct (is_RequestException e); [| discriminate].
    injection Hk as <-.
    apply keeps_bind; [apply keeps_print | intros _; apply keeps_ret].
Qed.

Lemma keeps_run_operation (op : operation) : keeps_self (run_operation env op).
Proof.
  destruct op; simpl;
    (apply keeps_bind; [| intros ?; apply keeps_ret]);
    try apply keeps_make_request.
  apply keeps_get_screenshot.
Qed.

Lemma keeps_poll_once (start : Q) (timeout : Z) (poll : Q) :
  keeps_self (poll_once env start timeout poll).
Proof.
  unfold poll_once.
  apply keeps_bind; [intros w; reflexivity | intros now].
  destruct (Qlt_bool (now - start) (inject_Z timeout)); [| apply keeps_ret].
  apply keeps_bind; [apply keeps_make_request | intros status].
  apply keeps_bind.
  - unfold dict_get. destruct status; try apply keeps_raise. apply keeps_ret.
  - intros active. destruct (negb (truthy active)).
    + apply keeps_bind; [apply keeps_make_request | intros ?; apply keeps_ret].
    + apply keeps_bind; [apply keeps_time_sleep | intros ?; apply keeps_ret].
Qed.

Lemma keeps_poll_loop (fuel : nat) (start : Q) (timeout : Z) (poll : Q) (w : World) :
  match poll_loop env fuel start timeout poll w with
  | Some (_, w') => self w' = self w
  | None => True
  end.
Proof.
  revert w. induction fuel as [| fuel IH]; intros w; simpl; [exact I|].
  pose proof (keeps_poll_once start timeout poll w) as Hk.
  destruct (poll_once env start timeout poll w) as [[[r |] | e] w1]; simpl in *.
  - exact Hk.
  - specialize (IH w1).
    destruct (poll_loop env fuel start timeout poll w1) as [[r w2] |]; [| exact I].
    congruence.
  - exact Hk.
Qed.

End KeepsSelf.

(** ** The base URL *)

Lemma rstrip_no_trailing (c : ascii) (s : string) : endswith c (rstrip c s) = false.
Proof.
  induction s as [| a s IH]; simpl; [reflexivity|].
  destruct (rstrip c s) as [| b r] eqn:E.
  - destruct (Ascii.eqb a c) eqn:Ea; simpl; [reflexivity | exact Ea].
  - exact IH.
Qed.

Example rstrip_two_slashes :
  rstrip slash "http://localhost:7777//" = "http://localhost:7777".
Proof. reflexivity. Qed.

Example rstrip_inner_slashes_stay : rstrip slash "http://a/b" = "http://a/b".
Proof. reflexivity. Qed.

Example rstrip_only_slashes : rstrip slash "///" = "".
Proof. reflexivity. Qed.

(** [rstrip] takes away trailing copies of [c] and nothing else. *)
Lemma rstrip_only_trailing (c : ascii) (s : string) :
  exists n, s = rstrip c s ++ repeat_char c n.
Proof.
  induction s as [| a s [n IH]]; simpl.
  - exists O. reflexivity.
  - destruct (rstrip c s) as [| b r] eqn:E.
    + destruct (Ascii.eqb a c) eqn:Ea.
      * apply Ascii.eqb_eq in Ea. subst a. exists (S n). simpl. f_equal. exact IH.
      * exists n. simpl. f_equal. exact IH.
    + exists n. simpl. f_equal. exact IH.
Qed.

(** C9.  Whatever string the client is constructed from, the stored base
    URL does not end in a slash; and no operation ([health_check],
    [get_status], [stop_agent], [get_latest_answer], [query],
    [get_screenshot], [wait_for_completion]) changes the stored base URL,
    whatever the server, the clock and the file system do. *)
Theorem base_url_has_no_trailing_slash :
  (forall u : string, endswith slash (base_url (__init__ u)) = false)
  /\ (forall env op w,
        base_url (self (snd (run_operation env op w))) = base_url (self w))
  /\ (forall env fuel timeout poll w,
        match wait_for_completion env fuel timeout poll w with
        | Some (_, w') => base_url (self w') = base_url (self w)
        | None => True
        end).
Proof.
  split; [| split].
  - intros u. apply rstrip_no_trailing.
  - intros env op w. rewrite keeps_run_operation. reflexivity.
  - intros env fuel timeout poll w. unfold wait_for_completion, time_time.
    pose proof (keeps_poll_loop env fuel (clock env (trace w)) timeout poll
                  (mkWorld (self w) (trace w ++ [EvTime]))) as H.
    destruct (poll_loop env fuel (clock env (trace w)) timeout poll
                (mkWorld (self w) (trace w ++ [EvTime]))) as [[r w'] |]; [| exact I].
    simpl in H. rewrite H. reflexivity.
Qed.

(** The mocks check the timeout as [requests] does. *)
Lemma mock_validates_timeouts (server : request -> outcome) :
  validates_timeouts (mock server).
Proof.
  intros tr rq a msg H. simpl. unfold transport. rewrite H. reflexivity.
Qed.

(** C4, amended.  [query(text, timeout)] calls [session.request] once and
    does nothing else; when the call is not refused, that is one POST to
    [/query] under the base URL whose JSON body is the mapping with the
    single key [query] bound to [text] (so [query("2+2")] sends
    [{"query": "2+2"}]), and [query] returns whenever the transport fails
    or answers with a body [json()] can work on.  A timeout of 0 or less is
    refused by [requests] with a [ValueError] before anything is sent, and
    [query] lets that exception through, as it does every refusal (the
    [OverflowError] for a timeout too large for the socket layer is
    another). *)
Theorem query_sends_one_post (env : Env) (text : string) (timeout : Z) (w : World) :
  let rq := mkRequest "POST" (base_url (self w) ++ "/query")
              (Some (JDict [("query", JStr text)])) (Some timeout) in
  (not_refused (http env (trace w) rq) = true ->
   exists r,
     query env text timeout w = (r, log w [EvRequest rq])
     /\ (returns_document (http env (trace w) rq) = true -> exists j, r = Return j))
  /\ (validates_timeouts env -> timeout <= 0 ->
      exists msg,
        http env (trace w) rq = Refused TimeoutNotPositive msg
        /\ query env text timeout w = (Raise (Exn ValueError msg), log w [EvRequest rq]))
  /\ (forall a msg,
        http env (trace w) rq = Refused a msg ->
        query env text timeout w
        = (Raise (Exn (argument_class a) msg), log w [EvRequest rq])).
Proof.
  intros rq. split; [| split].
  - intros _. unfold query.
    destruct (make_request_sent env "POST" "/query"
                (Some (JDict [("query", JStr text)])) (Some timeout) w) as [r Hr].
    exists r. split; [exact Hr|]. intros Hd.
    destruct (make_request_returns env "POST" "/query"
                (Some (JDict [("query", JStr text)])) (Some timeout) w Hd) as [j Hj].
    rewrite Hj in Hr. injection Hr as <-. exists j. reflexivity.
  - intros Hv Ht.
    assert (Hte : exists msg, timeout_error (Some timeout) = Some (TimeoutNotPositive, msg)).
    { unfold timeout_error. apply Z.leb_le in Ht. rewrite Ht. eexists. reflexivity. }
    destruct Hte as [msg Hte]. exists msg.
    pose proof (Hv (trace w) rq TimeoutNotPositive msg Hte) as Hr.
    split; [exact Hr|].
    unfold query. apply (make_request_refused env _ _ _ _ w TimeoutNotPositive msg Hr).
  - intros a msg Hr.
    unfold query. apply (make_request_refused env _ _ _ _ w a msg Hr).
Qed.

Lemma query_sends_one_post_witness :
  (exists r,
      query (mock (always (ok_json answer_body))) "2+2" 300 w0
      = (r, log w0 [EvRequest (mkRequest "POST" "http://localhost:7777/query"
                                 (Some (JDict [("query", JStr "2+2")])) (Some 300))])
      /\ (true = true -> exists j, r = Return j))
  /\ (exists msg,
        http (mock (always (ok_json answer_body))) []
             (mkRequest "POST" "http://localhost:7777/query"
                (Some (JDict [("query", JStr "2+2")])) (Some (-5)))
        = Refused TimeoutNotPositive msg
        /\ query (mock (always (ok_json answer_body))) "2+2" (-5) w0
           = (Raise (Exn ValueError msg),
              log w0 [EvRequest (mkRequest "POST" "http://localhost:7777/query"
                                   (Some (JDict [("query", JStr "2+2")])) (Some (-5)))])).
Proof.
  split.
  - apply (proj1 (query_sends_one_post (mock (always (ok_json answer_body)))
                    "2+2" 300 w0)).
    reflexivity.
  - apply (proj1 (proj2 (query_sends_one_post (mock (always (ok_json answer_body)))
                           "2+2" (-5) w0))).
    + intros tr rq a msg H. simpl. unfold transport. rewrite H. reflexivity.
    + lia.
Defined.

(** C4 as stated fails for a timeout that [requests] refuses: with
    [timeout = 0] the call raises [ValueError] before anything is sent, so
    no POST is issued, and [query] does not return. *)
Lemma query_with_zero_timeout :
  http (mock (always (ok_json answer_body))) []
       (mkRequest "POST" "http://localhost:7777/query"
          (Some (JDict [("query", JStr "2+2")])) (Some 0))
  = Refused TimeoutNotPositive
      "Attempted to set connect timeout to 0, but the timeout cannot be set to a value less than or equal to 0."
  /\ fst (query (mock (always (ok_json answer_body))) "2+2" 0 w0)
     = Raise (Exn ValueError
                "Attempted to set connect timeout to 0, but the timeout cannot be set to a value less than or equal to 0.").
Proof. split; reflexivity. Qed.

(** ** [get_screenshot] *)

Section ScreenshotFiles.

Variable env : Env.






End ScreenshotFiles.




(** ** The poll loop *)

Section PollLoop.

Variable env : Env.
Variable start : Q.
Variable timeout : Z.
Variable poll : Q.













End PollLoop.

(** On a clock that has not run backwards since the start, a turn can be
    in time only under a positive timeout. *)
Lemma in_time_positive_timeout (env : Env) (start : Q) (timeout : Z) (w : World) :
  (start <= clock env (trace w))%Q ->
  in_time env start timeout w = true ->
  0 < timeout.
Proof.
  unfold in_time, Qlt_bool. intros Hmono Ht.
  apply negb_true_iff in Ht.
  assert (Hlt : (clock env (trace w) - start < inject_Z timeout)%Q).
  { apply Qnot_le_lt. intros Hle. apply Qle_bool_iff in Hle. congruence. }
  assert (Hpos : (0 < inject_Z timeout)%Q) by lra.
  unfold Qlt in Hpos. simpl in Hpos. lia.
Qed.






(** ** The requests of a script *)

Lemma requests_in_app (a b : list event) :
  requests_in (a ++ b) = (requests_in a ++ requests_in b)%list.
Proof.
  induction a as [| e a IH]; simpl; [reflexivity|].
  destruct e; simpl; rewrite IH; reflexivity.
Qed.


Lemma bind_return {A B} (m : M A) (k : A -> M B) (w w' : World) (a : A) :
  m w = (Return a, w') -> bind m k w = k a w'.
Proof. intros E. unfold bind. rewrite E. reflexivity. Qed.

Lemma bind_raise {A B} (m : M A) (k : A -> M B) (w w' : World) (e : exn) :
  m w = (Raise e, w') -> bind m k w = (Raise e, w').
Proof. intros E. unfold bind. rewrite E. reflexivity. Qed.

(** What [print_response] does with a document it can encode, and with
    one it cannot. *)
Lemma print_response_encodable (data : json) (title : string) (w : World) :
  encodable data = true ->
  print_response data title w = (Return tt, log w (response_lines title data)).
Proof.
  intros H. unfold print_response. rewrite H.
  unfold bind, print, emit, log, response_lines. simpl.
  repeat rewrite <- app_assoc. reflexivity.
Qed.

Lemma print_response_surrogate (data : json) (title : string) (w : World) :
  encodable data = false ->
  exists msg,
    print_response data title w
    = (Raise (Exn UnicodeEncodeError msg),
       log w [EvPrint (nl ++ rule); EvPrint ("  " ++ title); EvPrint rule]).
Proof.
  intros H. unfold print_response. rewrite H.
  unfold bind, print, emit, raise, log. simpl.
  repeat rewrite <- app_assoc. eexists. reflexivity.
Qed.

Section Sends.

Variable env : Env.









End Sends.

(** ** [demo_interactive] *)

Section Demo.

Variable env : Env.






End Demo.

(** ** [get_screenshot], in every case *)

Lemma log_nil (w : World) : log w [] = w.
Proof. destruct w as [c t]. unfold log. simpl. rewrite app_nil_r. reflexivity. Qed.

Lemma log_log (w : World) (a b : list event) : log (log w a) b = log w (a ++ b).
Proof. unfold log. simpl. rewrite app_assoc. reflexivity. Qed.

Lemma path_given_some (sp : option string) (p : string) :
  path_given sp = Some p -> sp = Some p /\ p <> "".
Proof.
  unfold path_given. destruct sp as [q |]; [| discriminate].
  destruct (q =? "")%string eqn:E; [discriminate|].
  intros H. injection H as <-. split; [reflexivity|].
  intros ->. discriminate E.
Qed.

Lemma opened_app (a b : list event) : opened (a ++ b) = (opened a ++ opened b)%list.
Proof.
  induction a as [| e a IH]; simpl; [reflexivity|].
  destruct e; simpl; rewrite IH; reflexivity.
Qed.

Lemma closed_app (a b : list event) : closed (a ++ b) = (closed a ++ closed b)%list.
Proof.
  induction a as [| e a IH]; simpl; [reflexivity|].
  destruct e; simpl; rewrite IH; reflexivity.
Qed.

Lemma printed_json_app (a b : list event) :
  printed_json (a ++ b) = (printed_json a ++ printed_json b)%list.
Proof.
  induction a as [| e a IH]; simpl; [reflexivity|].
  destruct e; simpl; rewrite IH; reflexivity.
Qed.

(** The ways the [with] block can go: what it adds to the trace, and that
    it is left normally exactly when the four file operations go through. *)
Lemma with_open_write_cases (env : Env) (sp : option string) (p : string)
    (data : bytes) (w : World) :
  path_given sp = Some p ->
  exists r tail,
    with_open_write env p data w = (r, log w tail)
    /\ requests_in tail = []
    /\ printed_json tail = []
    /\ opened tail = closed tail
    /\ (List.length (opened tail) <= 1)%nat
    /\ (forall q, In q (opened tail) -> q = p)
    /\ ((r = Return tt /\ file_ops_succeed env sp (trace w) data)
        \/ ((exists c msg, r = Raise (Exn c msg))
            /\ ~ file_ops_succeed env sp (trace w) data)).
Proof.
  intros Hp. unfold with_open_write, file_ops_succeed. rewrite Hp.
  destruct (has_nul p) eqn:Hz.
  { exists (Raise (Exn ValueError "embedded null byte")), [].
    rewrite log_nil. simpl. repeat split; try tauto; try lia.
    right. split; [do 2 eexists; reflexivity|]. intros [H _]. discriminate H. }
  destruct (open_fails env (trace w) p) as [msg |] eqn:Ho.
  { exists (Raise (Exn OSError msg)), [].
    rewrite log_nil. simpl. repeat split; try tauto; try lia.
    right. split; [do 2 eexists; reflexivity|]. intros (_ & H & _). discriminate H. }
  destruct (write_fails env (trace w ++ [EvOpen p]) p data) as [msg |] eqn:Hw.
  { destruct (close_fails env (trace w ++ [EvOpen p]) p) as [msg' |].
    - exists (Raise (Exn OSError msg')), [EvOpen p; EvClose p].
      unfold log. simpl. rewrite <- app_assoc. simpl.
      repeat split; try tauto; try lia.
      + intros q [<- | []]. reflexivity.
      + right. split; [do 2 eexists; reflexivity|].
        intros (_ & _ & H & _). discriminate H.
    - exists (Raise (Exn OSError msg)), [EvOpen p; EvClose p].
      unfold log. simpl. rewrite <- app_assoc. simpl.
      repeat split; try tauto; try lia.
      + intros q [<- | []]. reflexivity.
      + right. split; [do 2 eexists; reflexivity|].
        intros (_ & _ & H & _). discriminate H. }
  replace ((trace w ++ [EvOpen p]) ++ [EvWrite p data])%list
    with (trace w ++ [EvOpen p; EvWrite p data])%list
    by (rewrite <- app_assoc; reflexivity).
  destruct (close_fails env (trace w ++ [EvOpen p; EvWrite p data]) p) as [msg' |] eqn:Hc.
  - exists (Raise (Exn OSError msg')), [EvOpen p; EvWrite p data; EvClose p].
    unfold log. simpl. rewrite <- app_assoc. simpl.
    repeat split; try tauto; try lia.
    + intros q [<- | []]. reflexivity.
    + right. split; [do 2 eexists; reflexivity|].
      intros (_ & _ & _ & H). discriminate H.
  - exists (Return tt), [EvOpen p; EvWrite p data; EvClose p].
    unfold log. simpl. rewrite <- app_assoc. simpl.
    repeat split; try tauto; try lia.
    intros q [<- | []]. reflexivity.
Qed.

(** The ways [get_screenshot] can go: what it hands back, what it adds to
    the trace after its request, and that it returns exactly when the
    call is not refused and the file operations go through. *)
Lemma get_screenshot_cases (env : Env) (sp : option string) (w : World) :
  exists r tail,
    get_screenshot env sp w
    = (r, log w (EvRequest (screenshot_request w) :: tail))
    /\ requests_in tail = []
    /\ printed_json tail = []
    /\ opened tail = closed tail
    /\ (List.length (opened tail) <= 1)%nat
    /\ (forall p, In p (opened tail) -> path_given sp = Some p)
    /\ (((exists b, r = Return b) /\ screenshot_returns env sp w)
        \/ ((exists c msg, r = Raise (Exn c msg)) /\ ~ screenshot_returns env sp w)).
Proof.
  assert (Hr : forall r0,
             screenshot_response env w = Some r0 ->
             not_refused (http env (trace w) (screenshot_request w)) = true ->
             exists r tail,
               get_screenshot env sp w
               = (r, log w (EvRequest (screenshot_request w) :: tail))
               /\ requests_in tail = []
               /\ printed_json tail = []
               /\ opened tail = closed tail
               /\ (List.length (opened tail) <= 1)%nat
               /\ (forall p, In p (opened tail) -> path_given sp = Some p)
               /\ (((exists b, r = Return b) /\ screenshot_returns env sp w)
                   \/ ((exists c msg, r = Raise (Exn c msg))
                       /\ ~ screenshot_returns env sp w))).
  { intros r0 Hr0 Hn. destruct (is_4xx_5xx (status_code r0)) eqn:Hc.
    { destruct (get_screenshot_rejected_status env sp w r0 Hr0 Hc) as [msg Hm].
      rewrite Hm. do 2 eexists. split; [reflexivity|]. simpl.
      repeat split; try tauto; try lia.
      left. split; [eexists; reflexivity|]. split; [exact Hn|].
      intros r1 Hr1 Hc1. rewrite Hr0 in Hr1. injection Hr1 as <-. congruence. }
    rewrite (get_screenshot_accepted env sp w r0 Hr0 Hc).
    destruct (path_given sp) as [p |] eqn:Hp.
    - destruct (with_open_write_cases env sp p (content r0)
                  (log w [EvRequest (screenshot_request w)]) Hp)
        as (r & tail & E & Hq & Hj & Hoc & Hlen & Hin & Hcase).
      rewrite E. destruct Hcase as [[-> Hf] | [(c & msg & ->) Hf]].
      + exists (Return (Some (content r0))), (tail ++ [EvPrint ("Screenshot saved to: " ++ p)])%list.
        split; [repeat rewrite log_log; reflexivity|].
        rewrite requests_in_app, opened_app, closed_app, printed_json_app, Hq. simpl.
        repeat rewrite app_nil_r.
        repeat split; try assumption.
        * intros q Hq'. rewrite (Hin q Hq'). reflexivity.
        * left. split; [eexists; reflexivity|]. split; [exact Hn|].
          intros r1 Hr1 _. rewrite Hr0 in Hr1. injection Hr1 as <-. exact Hf.
      + exists (Raise (Exn c msg)), tail.
        split; [rewrite log_log; reflexivity|].
        repeat split; try assumption.
        * intros q Hq'. rewrite (Hin q Hq'). reflexivity.
        * right. split; [do 2 eexists; reflexivity|].
          intros [_ H]. apply Hf. apply (H r0 Hr0 Hc).
    - exists (Return (Some (content r0))), []. split; [reflexivity|]. simpl.
      repeat split; try tauto; try lia.
      left. split; [eexists; reflexivity|]. split; [exact Hn|].
      intros r1 _ _. unfold file_ops_succeed. rewrite Hp. exact I. }
  destruct (http env (trace w) (screenshot_request w)) as [f msg | r | a msg | r d msg]
    eqn:H.
  - rewrite (get_screenshot_failed env sp w f msg H).
    do 2 eexists. split; [reflexivity|]. simpl.
    repeat split; try tauto; try lia.
    left. split; [eexists; reflexivity|]. split.
    + rewrite H. reflexivity.
    + intros r1 Hr1. unfold screenshot_response in Hr1. rewrite H in Hr1. discriminate.
  - apply (Hr r); [unfold screenshot_response; rewrite H; reflexivity | reflexivity].
  - rewrite (get_screenshot_refused env sp w a msg H).
    exists (Raise (Exn (argument_class a) msg)), []. split; [reflexivity|]. simpl.
    repeat split; try tauto; try lia.
    right. split; [do 2 eexists; reflexivity|].
    intros [Hn _]. rewrite H in Hn. discriminate Hn.
  - apply (Hr r); [unfold screenshot_response; rewrite H; reflexivity | reflexivity].
Qed.

(** ** The command line *)

Lemma namespace_of_choices (positionals : list string) (u : string) (ns : Namespace) :
  namespace_of positionals u = Parsed ns -> In (command ns) choices /\ url ns = u.
Proof.
  unfold namespace_of. destruct positionals as [| c rest].
  - intros H. injection H as <-. simpl. auto.
  - destruct (existsb (String.eqb c) choices) eqn:E; [| discriminate].
    intros H. injection H as <-. simpl. split; [| reflexivity].
    apply existsb_exists in E as (x & Hx & Hc).
    apply String.eqb_eq in Hc. subst x. exact Hx.
Qed.

Lemma parse_tail_choices (argv acc : list string) (ns : Namespace) :
  parse_tail argv acc = Parsed ns -> In (command ns) choices.
Proof.
  revert acc. induction argv as [| a rest IH]; intros acc; simpl.
  - intros H. apply (namespace_of_choices _ _ _ H).
  - destruct (a =? "--url")%string.
    + destruct rest as [| u [| x rest']]; try discriminate.
      destruct (is_option_string u); [discriminate|].
      intros H. apply (namespace_of_choices _ _ _ H).
    + destruct (is_option_string a); [discriminate|]. apply IH.
Qed.

Example parse_query_with_flag :
  parse_args ["query"; "what"; "is"; "2+2"; "--url"; "http://10.0.0.5:9000/"]
  = Parsed (mkNamespace "query" ["what"; "is"; "2+2"] "http://10.0.0.5:9000/").
Proof. reflexivity. Qed.

Example parse_flag_first :
  parse_args ["--url"; "http://10.0.0.5:9000"; "status"]
  = Parsed (mkNamespace "status" [] "http://10.0.0.5:9000").
Proof. reflexivity. Qed.

Example parse_unknown_command : parse_args ["restart"] = ParserExit 2.
Proof. reflexivity. Qed.

Example join_words : join " " ["what"; "is"; "2+2"] = "what is 2+2".
Proof. reflexivity. Qed.

(** What the parser accepts names one of the seven commands. *)
Lemma parse_args_choices (argv : list string) (ns : Namespace) :
  parse_args argv = Parsed ns -> In (command ns) choices.
Proof.
  unfold parse_args. destruct argv as [| a [| u positionals]];
    try apply parse_tail_choices.
  destruct (a =? "--url")%string; [| apply parse_tail_choices].
  destruct (forallb _ _); [| discriminate].
  intros H. apply (namespace_of_choices _ _ _ H).
Qed.

Section Dispatch.

Variable env : Env.

(** A command that prints what its operation returns: the one request it
    sends, and how it ends. *)
Lemma envelope_command_cases (w : World) (m e : string) (js : option json)
    (t : option Z) :
  requests_in
    (trace (snd ((j <- _make_request env m e js t ;; print_response j "Response") w)))
  = (requests_in (trace w) ++ [mkRequest m (base_url (self w) ++ e) js t])%list
  /\ (prints_well (http env (trace w) (mkRequest m (base_url (self w) ++ e) js t)) = true ->
      exists j,
        _make_request env m e js t w
        = (Return j, log w [EvRequest (mkRequest m (base_url (self w) ++ e) js t)])
        /\ (j <- _make_request env m e js t ;; print_response j "Response") w
           = (Return tt,
              log w (EvRequest (mkRequest m (base_url (self w) ++ e) js t)
                       :: response_lines "Response" j)))
  /\ (prints_well (http env (trace w) (mkRequest m (base_url (self w) ++ e) js t)) = false ->
      exists c msg,
        fst ((j <- _make_request env m e js t ;; print_response j "Response") w)
        = Raise (Exn c msg)).
Proof.
  split; [| split].
  - destruct (make_request_sent env m e js t w) as [r Hr].
    destruct r as [j | x].
    + rewrite (bind_return _ _ _ _ _ Hr).
      destruct (encodable j) eqn:He.
      * rewrite (print_response_encodable j "Response" _ He). simpl.
        repeat rewrite requests_in_app. simpl. rewrite app_nil_r. reflexivity.
      * destruct (print_response_surrogate j "Response"
                    (log w [EvRequest (mkRequest m (base_url (self w) ++ e) js t)]) He)
          as [msg Hm].
        rewrite Hm. simpl.
        repeat rewrite requests_in_app. simpl. rewrite app_nil_r. reflexivity.
    + rewrite (bind_raise _ _ _ _ _ Hr). simpl.
      rewrite requests_in_app. reflexivity.
  - intros Hp.
    destruct (make_request_prints_well env m e js t w Hp) as (j & Hj & He & _).
    exists j. split; [exact Hj|].
    rewrite (bind_return _ _ _ _ _ Hj).
    rewrite (print_response_encodable j "Response" _ He).
    rewrite log_log. reflexivity.
  - intros Hp.
    destruct (http env (trace w) (mkRequest m (base_url (self w) ++ e) js t))
      as [f msg | r | a msg | r d msg] eqn:H.
    + discriminate Hp.
    + simpl in Hp. apply orb_false_iff in Hp as [Hc Hj].
      destruct (json_value r) as [j |] eqn:HB; [| discriminate Hj].
      rewrite (bind_return _ _ _ _ _ (make_request_body env m e js t w r j H Hc HB)).
      destruct (print_response_surrogate j "Response"
                  (log w [EvRequest (mkRequest m (base_url (self w) ++ e) js t)]) Hj)
        as [msg Hm].
      rewrite Hm. do 2 eexists. reflexivity.
    + rewrite (bind_raise _ _ _ _ _ (make_request_refused env m e js t w a msg H)).
      do 2 eexists. reflexivity.
    + simpl in Hp.
      rewrite (bind_raise _ _ _ _ _ (make_request_unreadable env m e js t w r d msg H Hp)).
      do 2 eexists. reflexivity.
Qed.

Ltac pick_command H :=
  match type of H with
  | (if (?c =? ?lit)%string then _ else _) = _ =>
      let E := fresh "E" in
      destruct (c =? lit)%string eqn:E;
      [apply String.eqb_eq in E; subst c | clear E]
  end.

(** What [main] runs for a command line that stands for an operation. *)
Lemma dispatch_envelope (ns : Namespace) (op : operation) :
  operation_of ns = Some op ->
  returns_envelope op = true ->
  exists m e js t,
    (forall c, request_of c op = mkRequest m (base_url c ++ e) js t)
    /\ run_operation env op = (j <- _make_request env m e js t ;; ret (VJson j))
    /\ dispatch env ns = (j <- _make_request env m e js t ;; print_response j "Response").
Proof.
  destruct ns as [c a u]. unfold operation_of. cbn [command args url].
  intros H Hop.
  pick_command H.
  { injection H as <-. exists "GET", "/health", None, None. repeat split. }
  pick_command H.
  { destruct a as [| x a]; [discriminate H|]. injection H as <-.
    exists "POST", "/query", (Some (JDict [("query", JStr (join " " (x :: a)))])),
           (Some 300).
    repeat split. }
  pick_command H.
  { injection H as <-. exists "GET", "/is_active", None, None. repeat split. }
  pick_command H.
  { injection H as <-. discriminate Hop. }
  pick_command H.
  { injection H as <-. exists "GET", "/stop", None, None. repeat split. }
  pick_command H.
  { injection H as <-. exists "GET", "/latest_answer", None, None. repeat split. }
  discriminate H.
Qed.

Lemma dispatch_screenshot (ns : Namespace) (sp : option string) :
  operation_of ns = Some (Screenshot sp) ->
  dispatch env ns = (_ <- get_screenshot env sp ;; ret tt).
Proof.
  destruct ns as [c a u]. unfold operation_of. cbn [command args url].
  intros H.
  pick_command H; [discriminate H|].
  pick_command H; [destruct a; discriminate H|].
  pick_command H; [discriminate H|].
  pick_command H; [injection H as <-; reflexivity|].
  pick_command H; [discriminate H|].
  pick_command H; [discriminate H|].
  discriminate H.
Qed.


End Dispatch.




(** C6, on the code.  The base URL follows the [--url] flag and defaults
    to [http://localhost:7777]; the environment is never consulted, so
    setting [AGENTIC_SEEK_URL] changes nothing: with it set and no flag,
    [health] still goes to [http://localhost:7777/health]. *)
Theorem environment_variable_is_not_read :
  (forall env environ environ' argv tr,
      run_cli env environ argv tr = run_cli env environ' argv tr)
  /\ option_map (fun x => requests_in (snd x))
       (run_cli (mock (always (Responded healthy)))
                [("AGENTIC_SEEK_URL", "http://10.0.0.5:9000")] ["health"] [])
     = Some [mkRequest "GET" "http://localhost:7777/health" None None]
  /\ option_map (fun x => requests_in (snd x))
       (run_cli (mock (always (Responded healthy)))
                [] ["health"; "--url"; "http://10.0.0.5:9000/"] [])
     = Some [mkRequest "GET" "http://10.0.0.5:9000/health" None None]
  /\ option_map (fun x => requests_in (snd x))
       (run_cli (mock (always (Responded healthy))) [] ["health"] [])
     = Some [mkRequest "GET" "http://localhost:7777/health" None None].
Proof. repeat split; reflexivity. Qed.

(** * Further properties of the code *)

(** ** The envelope operations, outcome by outcome *)

Section EnvelopeOperations.

Variable env : Env.

Lemma make_request_raises (m e : string) (js : option json) (t : option Z)
    (w : World) :
  returns_document (http env (trace w) (mkRequest m (base_url (self w) ++ e) js t))
  = false ->
  exists c msg,
    _make_request env m e js t w
    = (Raise (Exn c msg), log w [EvRequest (mkRequest m (base_url (self w) ++ e) js t)])
    /\ is_RequestException (Exn c msg) = false.
Proof.
  intros Hd.
  destruct (http env (trace w) (mkRequest m (base_url (self w) ++ e) js t))
    as [f msg | r | a msg | r d msg] eqn:H; try discriminate Hd.
  - exists (argument_class a), msg.
    split; [apply (make_request_refused env m e js t w a msg H)|].
    destruct a; reflexivity.
  - exists (decoder_class d), msg. simpl in Hd.
    split; [apply (make_request_unreadable env m e js t w r d msg H Hd)|].
    destruct d; reflexivity.
Qed.

(** X1.  Each of [health_check], [get_status], [stop_agent],
    [get_latest_answer] and [query] sends exactly one request, the one of
    its method and endpoint under the base URL.  It returns a document,
    whether the transport fails or the server answers, unless
    [session.request] refuses the arguments or [json()] raises something
    else than a [JSONDecodeError] on an accepted status: then that
    exception, which is no [RequestException], reaches the caller. *)
Theorem envelope_operation_returns_or_raises (op : operation) (w : World) :
  returns_envelope op = true ->
  (returns_document (http env (trace w) (request_of (self w) op)) = true ->
   exists j,
     run_operation env op w
     = (Return (VJson j), log w [EvRequest (request_of (self w) op)]))
  /\ (returns_document (http env (trace w) (request_of (self w) op)) = false ->
      exists c msg,
        run_operation env op w
        = (Raise (Exn c msg), log w [EvRequest (request_of (self w) op)])
        /\ is_RequestException (Exn c msg) = false).
Proof.
  intros Hop.
  assert (Hrun : exists m e js t,
             (forall c, request_of c op = mkRequest m (base_url c ++ e) js t)
             /\ run_operation env op = (j <- _make_request env m e js t ;; ret (VJson j))).
  { destruct op; simpl in Hop; try discriminate.
    - exists "GET", "/health", None, None. split; reflexivity.
    - exists "GET", "/is_active", None, None. split; reflexivity.
    - exists "GET", "/stop", None, None. split; reflexivity.
    - exists "GET", "/latest_answer", None, None. split; reflexivity.
    - exists "POST", "/query", (Some (JDict [("query", JStr text)])), (Some timeout).
      split; reflexivity. }
  destruct Hrun as (m & e & js & t & Hrq & Hrun).
  rewrite Hrun, (Hrq (self w)). split.
  - intros Hd. destruct (make_request_returns env m e js t w Hd) as [j Hj].
    exists j. rewrite (bind_return _ _ _ _ _ Hj). reflexivity.
  - intros Hd. destruct (make_request_raises m e js t w Hd) as (c & msg & Hj & Hc).
    exists c, msg. split; [| exact Hc].
    rewrite (bind_raise _ _ _ _ _ Hj). reflexivity.
Qed.

(** X2.  A response with an accepted status (outside 400 to 599) whose
    body is no JSON document makes each envelope operation return the
    mapping whose only key is [error]: the decoding error is caught, and
    the result carries no [status_code]. *)
Theorem undecodable_body_gives_error_envelope (op : operation) (w : World)
    (r : response) :
  returns_envelope op = true ->
  http env (trace w) (request_of (self w) op) = Responded r ->
  is_4xx_5xx (status_code r) = false ->
  json_value r = None ->
  exists msg,
    run_operation env op w
    = (Return (VJson (JDict [("error", JStr msg)])),
       log w [EvRequest (request_of (self w) op)]).
Proof.
  intros Hop H Hc HB.
  destruct op; simpl in Hop; try discriminate; simpl in H;
    unfold run_operation, health_check, get_status, stop_agent,
           get_latest_answer, query, bind, ret;
    destruct (make_request_undecodable env _ _ _ _ w r H Hc HB) as [msg Hm];
    rewrite Hm; exists msg; reflexivity.
Qed.

End EnvelopeOperations.

Lemma envelope_operation_returns_or_raises_witness :
  exists j,
    run_operation (mock (always (Failed TimedOut "Read timed out"))) Stop w0
    = (Return (VJson j), log w0 [EvRequest (request_of (self w0) Stop)]).
Proof.
  apply (proj1 (envelope_operation_returns_or_raises
                  (mock (always (Failed TimedOut "Read timed out"))) Stop w0 eq_refl)).
  reflexivity.
Defined.

Lemma undecodable_body_gives_error_envelope_witness :
  exists msg,
    run_operation (mock (always (Responded html_page))) Health w0
    = (Return (VJson (JDict [("error", JStr msg)])),
       log w0 [EvRequest (request_of (self w0) Health)]).
Proof.
  apply (undecodable_body_gives_error_envelope
           (mock (always (Responded html_page))) Health w0 html_page
           eq_refl eq_refl eq_refl eq_refl).
Defined.

(** ** The base URL, continued *)

Lemma rstrip_unchanged (c : ascii) (s : string) :
  endswith c s = false -> rstrip c s = s.
Proof.
  induction s as [| a s IH]; simpl; [reflexivity|].
  destruct s as [| b s'].
  - intros Ha. simpl. rewrite Ha. reflexivity.
  - intros H. rewrite (IH H). reflexivity.
Qed.

Lemma rstrip_one_more (c : ascii) (s : string) :
  rstrip c (s ++ String c EmptyString) = rstrip c s.
Proof.
  induction s as [| a s IH]; simpl.
  - rewrite Ascii.eqb_refl. reflexivity.
  - rewrite IH. reflexivity.
Qed.

(** X3.  The stored base URL is the string the client was constructed
    from with trailing slashes taken away and nothing else changed: the
    given string is the stored one followed by slashes only, and a string
    that does not end in a slash is stored as it is. *)
Theorem base_url_strips_only_trailing_slashes (u : string) :
  (exists n, u = base_url (__init__ u) ++ repeat_char slash n)
  /\ (endswith slash u = false -> base_url (__init__ u) = u).
Proof.
  split.
  - apply rstrip_only_trailing.
  - apply rstrip_unchanged.
Qed.

Lemma base_url_strips_only_trailing_slashes_witness :
  base_url (__init__ "http://10.0.0.5:9000/api") = "http://10.0.0.5:9000/api".
Proof.
  apply (proj2 (base_url_strips_only_trailing_slashes "http://10.0.0.5:9000/api")).
  reflexivity.
Defined.

(** X4.  A trailing slash on the URL makes no difference to the program:
    [main] run with [--url U/] does what it does with [--url U], for every
    command, server, clock and file system. *)
Theorem trailing_slash_is_immaterial (env : Env) (ns : Namespace) (tr : list event) :
  main env (mkNamespace (command ns) (args ns) (url ns ++ "/")) tr = main env ns tr.
Proof.
  destruct ns as [c a u]. unfold main, __init__. simpl.
  replace (rstrip slash (u ++ "/")) with (rstrip slash u)
    by (symmetry; apply (rstrip_one_more slash)).
  reflexivity.
Qed.

(** X5.  [get_screenshot] closes every file it opens, also when writing
    fails or the request fails; it opens at most the file at [save_path],
    and none when no path or an empty path is given. *)
Theorem get_screenshot_closes_what_it_opens (env : Env) (save_path : option string)
    (w : World) :
  exists added,
    trace (snd (get_screenshot env save_path w)) = (trace w ++ added)%list
    /\ opened added = closed added
    /\ (List.length (opened added) <= 1)%nat
    /\ (forall p, In p (opened added) -> save_path = Some p /\ p <> "").
Proof.
  destruct (get_screenshot_cases env save_path w)
    as (r & tail & E & _ & _ & Hoc & Hlen & Hp & _).
  exists (EvRequest (screenshot_request w) :: tail).
  rewrite E. simpl. split; [reflexivity|]. split; [exact Hoc|].
  split; [exact Hlen|].
  intros p Hin. apply path_given_some. apply Hp. exact Hin.
Qed.

(** ** The poll loop, continued *)

Section PollLoopMore.

Variable env : Env.
Variable start : Q.
Variable timeout : Z.
Variable poll : Q.








End PollLoopMore.

Lemma slept_app (a b : list event) : (slept (a ++ b) == slept a + slept b)%Q.
Proof.
  induction a as [| e a IH]; simpl; [lra|].
  destruct e; try exact IH. rewrite IH. lra.
Qed.

(** The clock of the mocks advances as required. *)
Lemma mock_clock_advances (server : request -> outcome) : clock_advances (mock server).
Proof.
  intros tr e. simpl. rewrite slept_app.
  destruct e; simpl; lra.
Qed.









(** ** [demo_interactive], step by step *)

Section DemoSteps.

Variable env : Env.



End DemoSteps.



(** ** The commands of [main] *)

Section CommandFacts.

Variable env : Env.

Lemma make_request_never_exits (m e : string) (js : option json) (t : option Z)
    (w : World) (code : Z) :
  fst (_make_request env m e js t w) <> Raise (SystemExit code).
Proof.
  destruct (returns_document
              (http env (trace w) (mkRequest m (base_url (self w) ++ e) js t))) eqn:Hd.
  - destruct (make_request_returns env m e js t w Hd) as [j Hj].
    rewrite Hj. discriminate.
  - destruct (make_request_raises env m e js t w Hd) as (c & msg & Hj & _).
    rewrite Hj. discriminate.
Qed.

Lemma never_exits_bind {A B} (m : M A) (k : A -> M B) :
  never_exits m -> (forall a, never_exits (k a)) -> never_exits (bind m k).
Proof.
  intros Hm Hk w code. unfold bind. specialize (Hm w).
  destruct (m w) as [[a | e] w1]; simpl in *.
  - apply Hk.
  - intros E. injection E as ->. apply (Hm code). reflexivity.
Qed.

Lemma never_exits_print (line : string) : never_exits (print line).
Proof. intros w code. discriminate. Qed.

Lemma never_exits_print_response (data : json) (title : string) :
  never_exits (print_response data title).
Proof.
  intros w code. destruct (encodable data) eqn:He.
  - rewrite (print_response_encodable data title w He). discriminate.
  - destruct (print_response_surrogate data title w He) as [msg Hm].
    rewrite Hm. discriminate.
Qed.

Lemma never_exits_make_request (m e : string) (js : option json) (t : option Z) :
  never_exits (_make_request env m e js t).
Proof. intros w code. apply make_request_never_exits. Qed.

Lemma never_exits_get_screenshot (sp : option string) :
  never_exits (get_screenshot env sp).
Proof.
  intros w code.
  destruct (get_screenshot_cases env sp w)
    as (r & tail & E & _ & _ & _ & _ & _ & [[[b ->] _] | [(c & msg & ->) _]]);
    rewrite E; discriminate.
Qed.

Lemma never_exits_envelope_command (m e : string) (js : option json) (t : option Z) :
  never_exits (j <- _make_request env m e js t ;; print_response j "Response").
Proof.
  apply never_exits_bind; [apply never_exits_make_request | intros j].
  apply never_exits_print_response.
Qed.

Lemma never_exits_demo_interactive : never_exits (demo_interactive env).
Proof.
  unfold demo_interactive.
  do 6 (apply never_exits_bind; [apply never_exits_print | intros _]).
  apply never_exits_bind; [apply never_exits_make_request | intros health].
  apply never_exits_bind; [apply never_exits_print_response | intros _].
  apply never_exits_bind.
  { unfold dict_get. intros w code. destruct health; discriminate. }
  intros err.
  destruct (truthy err); [apply never_exits_print|].
  apply never_exits_bind; [apply never_exits_print | intros _].
  apply never_exits_bind; [apply never_exits_make_request | intros status].
  apply never_exits_bind; [apply never_exits_print_response | intros _].
  do 2 (apply never_exits_bind; [apply never_exits_print | intros _]).
  apply never_exits_bind; [apply never_exits_make_request | intros result].
  apply never_exits_bind; [apply never_exits_print_response | intros _].
  apply never_exits_bind; [apply never_exits_print | intros _].
  apply never_exits_bind; [apply never_exits_make_request | intros answer].
  apply never_exits_bind; [apply never_exits_print_response | intros _].
  apply never_exits_bind; [apply never_exits_print | intros _].
  apply never_exits_bind; [apply never_exits_get_screenshot | intros screenshot].
  apply never_exits_bind.
  { destruct screenshot as [[| b bs] |]; apply never_exits_print. }
  intros _.
  do 10 (apply never_exits_bind; [apply never_exits_print | intros _]).
  apply never_exits_print.
Qed.

Lemma never_exits_status {A} (m : M A) (w : World) :
  never_exits m ->
  exit_status false (fst (m w)) = 0 \/ exit_status false (fst (m w)) = 1.
Proof.
  intros H. specialize (H w).
  destruct (fst (m w)) as [a | [c msg | code]]; simpl; auto.
  exfalso. apply (H code). reflexivity.
Qed.

(** X12.  Whatever the command, the arguments, the server, the clock and
    the file system, the process ends with exit status 120 when the last
    flush of standard output fails, and with exit status 0 or 1 when it
    does not. *)
Theorem exit_status_is_0_1_or_120 (ns : Namespace) (tr : list event) :
  (flush_fails env (trace (snd (main env ns tr))) = true ->
   status_of env (main env ns tr) = 120)
  /\ (flush_fails env (trace (snd (main env ns tr))) = false ->
      status_of env (main env ns tr) = 0 \/ status_of env (main env ns tr) = 1).
Proof.
  split.
  { intros Hf. unfold status_of, exit_status. rewrite Hf. reflexivity. }
  intros Hf.
  assert (Hst : status_of env (main env ns tr)
                = exit_status false (fst (main env ns tr))).
  { unfold status_of. rewrite Hf. reflexivity. }
  rewrite Hst. clear Hst Hf.
  unfold main, dispatch.
  destruct (command ns =? "demo")%string;
    [apply never_exits_status, never_exits_demo_interactive|].
  destruct (command ns =? "health")%string;
    [apply never_exits_status, never_exits_envelope_command|].
  destruct (command ns =? "query")%string.
  { destruct (args ns) as [| x a].
    - right. reflexivity.
    - apply never_exits_status. unfold query. apply never_exits_envelope_command. }
  destruct (command ns =? "status")%string;
    [apply never_exits_status, never_exits_envelope_command|].
  destruct (command ns =? "screenshot")%string.
  { apply never_exits_status. apply never_exits_bind.
    - apply never_exits_get_screenshot.
    - intros _ w code. discriminate. }
  destruct (command ns =? "stop")%string;
    [apply never_exits_status, never_exits_envelope_command|].
  destruct (command ns =? "history")%string;
    [apply never_exits_status, never_exits_envelope_command|].
  left. reflexivity.
Qed.

(** X13.  A command line that stands for a client operation makes [main]
    send exactly the request of that operation, under the base URL taken
    from [--url]: [health], [status], [stop] and [history] a GET to their
    endpoint, [query] a POST with the words joined by single spaces,
    [screenshot] a GET to [/screenshot], whatever comes back. *)
Theorem command_sends_one_request (ns : Namespace) (tr : list event)
    (op : operation) :
  operation_of ns = Some op ->
  requests_in (trace (snd (main env ns tr)))
  = (requests_in tr ++ [request_of (__init__ (url ns)) op])%list.
Proof.
  intros H. unfold main.
  destruct (returns_envelope op) eqn:Hop.
  - destruct (dispatch_envelope env ns op H Hop) as (m & e & js & t & Hrq & _ & Hd).
    rewrite Hd, Hrq.
    apply (proj1 (envelope_command_cases env (mkWorld (__init__ (url ns)) tr) m e js t)).
  - destruct op; try discriminate Hop.
    rewrite (dispatch_screenshot env ns save_path H).
    destruct (get_screenshot_cases env save_path (mkWorld (__init__ (url ns)) tr))
      as (r & tail & E & Hr & _).
    unfold bind. rewrite E.
    assert (Ht : forall x : result unit * World,
               snd x = log (mkWorld (__init__ (url ns)) tr)
                         (EvRequest (screenshot_request (mkWorld (__init__ (url ns)) tr))
                            :: tail) ->
               requests_in (trace (snd x))
               = (requests_in tr
                  ++ [request_of (__init__ (url ns)) (Screenshot save_path)])%list).
    { intros x ->. cbn [snd trace log].
      rewrite requests_in_app. cbn [requests_in]. rewrite Hr. reflexivity. }
    apply Ht. destruct r; reflexivity.
Qed.


End CommandFacts.

Lemma exit_status_is_0_1_or_120_witness :
  status_of (closed_pipe (always (Responded healthy)))
    (main (closed_pipe (always (Responded healthy)))
          (mkNamespace "health" [] default_url) []) = 120
  /\ (status_of (mock (always (Responded array_health)))
        (main (mock (always (Responded array_health)))
              (mkNamespace "demo" [] default_url) []) = 0
      \/ status_of (mock (always (Responded array_health)))
           (main (mock (always (Responded array_health)))
                 (mkNamespace "demo" [] default_url) []) = 1).
Proof.
  split.
  - apply (proj1 (exit_status_is_0_1_or_120 (closed_pipe (always (Responded healthy)))
                    (mkNamespace "health" [] default_url) [])).
    reflexivity.
  - apply (proj2 (exit_status_is_0_1_or_120 (mock (always (Responded array_health)))
                    (mkNamespace "demo" [] default_url) [])).
    reflexivity.
Defined.

Lemma command_sends_one_request_witness :
  requests_in
    (trace (snd (main (mock (always (Failed DNSFailure "Name or service not known")))
                      (mkNamespace "query" ["what"; "is"; "2+2"] "http://10.0.0.5:9000/")
                      [])))
  = [mkRequest "POST" "http://10.0.0.5:9000/query"
       (Some (JDict [("query", JStr "what is 2+2")])) (Some 300)].
Proof.
  apply (command_sends_one_request
           (mock (always (Failed DNSFailure "Name or service not known")))
           (mkNamespace "query" ["what"; "is"; "2+2"] "http://10.0.0.5:9000/")
           [] (Query "what is 2+2" 300) eq_refl).
Defined.


(** ** The argument parser *)

Lemma namespace_of_url (positionals : list string) (u : string) (ns : Namespace) :
  namespace_of positionals u = Parsed ns -> url ns = u.
Proof. intros H. apply (namespace_of_choices _ _ _ H). Qed.

Lemma parse_tail_default_url (argv acc : list string) (ns : Namespace) :
  ~ In "--url" argv ->
  parse_tail argv acc = Parsed ns -> url ns = default_url.
Proof.
  revert acc. induction argv as [| a rest IH]; intros acc Hn; simpl.
  - apply namespace_of_url.
  - destruct (a =? "--url")%string eqn:E.
    + apply String.eqb_eq in E. exfalso. apply Hn. left. exact E.
    + destruct (is_option_string a); [discriminate|].
      apply IH. intros Hin. apply Hn. right. exact Hin.
Qed.

(** X15.  What the parser accepts names one of the seven commands; with
    no argument at all the command is [demo]; and when [--url] does not
    occur among the arguments the base URL is [http://localhost:7777]. *)
Theorem parse_args_defaults (argv : list string) (ns : Namespace) :
  parse_args argv = Parsed ns ->
  In (command ns) choices
  /\ (argv = [] -> command ns = "demo" /\ args ns = [])
  /\ (~ In "--url" argv -> url ns = default_url).
Proof.
  intros H. split; [apply (parse_args_choices argv ns H)|]. split.
  - intros ->. simpl in H. injection H as <-. split; reflexivity.
  - intros Hn. unfold parse_args in H.
    destruct argv as [| a [| u positionals]];
      try (apply (parse_tail_default_url _ _ _ Hn H)).
    destruct (a =? "--url")%string eqn:E.
    + apply String.eqb_eq in E. exfalso. apply Hn. left. exact E.
    + apply (parse_tail_default_url _ _ _ Hn H).
Qed.

Lemma parse_args_defaults_witness :
  In "status" choices
  /\ url (mkNamespace "status" [] default_url) = default_url.
Proof.
  destruct (parse_args_defaults ["status"] (mkNamespace "status" [] default_url) eq_refl)
    as (Hc & _ & Hu).
  split; [exact Hc|]. apply Hu.
  intros [H | []]. discriminate H.
Defined.
